(** * FlashSourceBuffer: a shallow embedding of [src/flash-source-buffer.js]

    The JavaScript class [FlashSourceBuffer] is embedded as a record of its
    fields together with the pieces of its environment it talks to (the
    media source and its SWF object, the two [window] globals it installs,
    the timer queue and the transmuxer worker's inbox).  Methods become
    functions in a small state-and-exception monad; every externally visible
    action (events, worker messages, calls on the SWF object, timers) is
    written to a chronological log so that ordering can be stated.

    JavaScript numbers are IEEE-754 binary64 values: they are embedded as
    Rocq's primitive floats, with [NaN], signed zeros and infinities. *)

From Stdlib Require Import Floats ZArith Bool List String Lia PeanoNat.
Import ListNotations.
Open Scope string_scope.
Open Scope list_scope.

(** ** JavaScript values and numbers *)

(** The values a caller can hand to the [timestampOffset] setter or to
    [toDecimalPlaces]. *)
Inductive JSValue : Type :=
| JSUndefined
| JSNull
| JSBoolean (b : bool)
| JSNumber (n : float)
| JSString (str : string)
| JSObject (ref : nat).

(** [typeof v]. *)
Definition typeof (v : JSValue) : string :=
  match v with
  | JSUndefined => "undefined"
  | JSNull => "object"
  | JSBoolean _ => "boolean"
  | JSNumber _ => "number"
  | JSString _ => "string"
  | JSObject _ => "object"
  end.

(** The global [isNaN] applied to a number. *)
Definition isNaN (n : float) : bool := PrimFloat.is_nan n.

(** Truthiness of a number: everything but [NaN], [+0] and [-0]. *)
Definition truthy (n : float) : bool :=
  negb (PrimFloat.is_nan n) && negb (PrimFloat.eqb n 0%float).

(** SameValueZero on numbers ([NaN] equals [NaN], [+0] equals [-0]). *)
Definition SameValueZero (a b : float) : bool :=
  (PrimFloat.is_nan a && PrimFloat.is_nan b) || PrimFloat.eqb a b.

(** [Math.max(a, b)]: [NaN] if either argument is, and [+0] is larger than
    [-0]. *)
Definition Math_max (a b : float) : float :=
  if PrimFloat.is_nan a || PrimFloat.is_nan b then PrimFloat.nan
  else if PrimFloat.ltb a b then b
  else if PrimFloat.ltb b a then a
  else if PrimFloat.get_sign a then b else a.

(** The integer [z] as a float (exact whenever [|z| <= 2^53]). *)
Definition float_of_Z (z : Z) : float :=
  SF2Prim (binary_normalize prec emax z 0 false).

(** [Math.round(x)]: the integer closest to [x], ties going towards
    [+Infinity]; [NaN], infinities, zeros and integral values are returned
    as they are, and a result of zero keeps the sign of [x].  The rounding
    is computed exactly, as [floor (x + 1/2)] over the integers. *)
Definition Math_round (x : float) : float :=
  match Prim2SF x with
  | S754_finite sgn m e =>
      if (0 <=? e)%Z then x
      else
        let sm := if sgn then Z.neg m else Z.pos m in
        let n := Z.shiftr (sm + Z.pow 2 (- e - 1)) (- e) in
        if (n =? 0)%Z then (if sgn then (-0)%float else 0%float)
        else float_of_Z n
  | _ => x
  end.

(** ** The data model *)

(** A chunk is a base64 string produced by the transmuxer worker. *)
Definition Chunk : Type := string.

(** The typed array handed to [appendBuffer]. *)
Record Uint8Array : Type := mkUint8Array {
  buffer : list Z;
  byteOffset : Z;
  byteLength : Z
}.

(** A text-track cue, as far as this file looks at it. *)
Record Cue : Type := mkCue {
  startTime : float;
  endTime : float;
  text : string
}.

Definition Track : Type := list Cue.

(** The segment carried by a worker message whose action is ['metadata']. *)
Module Segment.
Record t : Type := mk {
  basePts : float;
  length : float;
  captions : list Cue;
  metadata : list Cue
}.
End Segment.

(** The list of [[start, end]] pairs the SWF reports as ['buffered'];
    [None] stands for [null] or [undefined]. *)
Definition BufferedProperty : Type := option (list (float * float)).

(** [videojs] time ranges, as the list of their [[start, end]] pairs. *)
Definition TimeRanges : Type := list (float * float).

(** The SWF object: which of the [vjs_] methods it exposes, and what
    [vjs_getProperty] answers. *)
Record SwfObj : Type := mkSwfObj {
  vjs_appendChunkReady : bool;
  vjs_abort : bool;
  vjs_discontinuity : bool;
  vjs_getProperty : option (string -> BufferedProperty)
}.

(** The tech: what [tech.seeking()] and [tech.currentTime()] answer. *)
Record Tech : Type := mkTech {
  seeking : bool;
  currentTime : float
}.

(** The flash media source that owns the buffer. *)
Record MediaSource : Type := mkMediaSource {
  readyState : string;
  swfObj : option SwfObj;
  tech_ : Tech
}.

(** [FlashConstants], a module of the repository that is not among the
    sources: its two constants are taken as given. *)
Record FlashConstants : Type := mkFlashConstants {
  BYTES_PER_CHUNK : Z;
  TIME_BETWEEN_CHUNKS : Z
}.

(** Messages posted to the transmuxer worker. *)
Inductive Message : Type :=
| MsgInit
| MsgPush (data : list Z) (off len : Z)
| MsgFlush
| MsgReset
| MsgConvertTagsToData (targetPts : float).

(** Messages the worker sends back ([event.data]). *)
Inductive WorkerEvent : Type :=
| EvMetadata (segment : Segment.t)
| EvData (b64 : list Chunk)
| EvOther (action : string).

(** Externally visible actions, in the order they happen. *)
Inductive Effect : Type :=
| Trigger (type : string)                (* this.trigger({type}) *)
| TechTrigger (type : string)            (* mediaSource_.tech_.trigger(type) *)
| PostMessage (m : Message)              (* transmuxer_.postMessage(m) *)
| SetReadyState (v : string)             (* mediaSource_.readyState = v *)
| SwfAppendChunkReady (name : string)    (* swfObj.vjs_appendChunkReady(name) *)
| SwfAbort                               (* swfObj.vjs_abort() *)
| SwfDiscontinuity                       (* swfObj.vjs_discontinuity() *)
| SetTimeout (delay : Z)                 (* window.setTimeout(processBuffer_, delay) *)
| SinkReceives (payload : Chunk).        (* the value a global callback throws *)

(** What a method can throw. *)
Inductive Thrown : Type :=
| InvalidStateError (code : Z) (message : string)
| TypeError
| ThrownString (payload : Chunk).

(** The buffer's fields and the environment it acts on. *)
Record State : Type := mkState {
  constants : FlashConstants;
  chunkSize_ : Z;
  buffer_ : list Chunk;
  bufferSize_ : Z;
  basePtsOffset_ : float;
  mediaSource_ : option MediaSource;
  updating : bool;
  timestampOffset_ : float;
  metadataTrack_ : option Track;
  inbandTextTrack_ : option Track;
  (* the listener registered with this.one('updateend', ...) is still armed *)
  updateend_once : bool;
  (* window.throwDataSuperSecret: the chunk its closure captured *)
  throwDataSuperSecret : option Chunk;
  (* window.encodedHeaderSuperSecret: the header its closure captured *)
  encodedHeaderSuperSecret : option Chunk;
  (* callbacks scheduled with scheduleTick and not yet run (all of them are
     processBuffer_) *)
  timers : nat;
  (* names of the global callbacks the SWF was asked to call and has not
     called yet, oldest first *)
  swf_requests : list string;
  effects : list Effect
}.

Definition set_buffer_ (v : list Chunk) (s : State) : State :=
  mkState (constants s) (chunkSize_ s) v (bufferSize_ s) (basePtsOffset_ s)
    (mediaSource_ s) (updating s) (timestampOffset_ s) (metadataTrack_ s)
    (inbandTextTrack_ s) (updateend_once s) (throwDataSuperSecret s)
    (encodedHeaderSuperSecret s) (timers s) (swf_requests s) (effects s).

Definition set_bufferSize_ (v : Z) (s : State) : State :=
  mkState (constants s) (chunkSize_ s) (buffer_ s) v (basePtsOffset_ s)
    (mediaSource_ s) (updating s) (timestampOffset_ s) (metadataTrack_ s)
    (inbandTextTrack_ s) (updateend_once s) (throwDataSuperSecret s)
    (encodedHeaderSuperSecret s) (timers s) (swf_requests s) (effects s).

Definition set_basePtsOffset_ (v : float) (s : State) : State :=
  mkState (constants s) (chunkSize_ s) (buffer_ s) (bufferSize_ s) v
    (mediaSource_ s) (updating s) (timestampOffset_ s) (metadataTrack_ s)
    (inbandTextTrack_ s) (updateend_once s) (throwDataSuperSecret s)
    (encodedHeaderSuperSecret s) (timers s) (swf_requests s) (effects s).

Definition set_mediaSource_ (v : option MediaSource) (s : State) : State :=
  mkState (constants s) (chunkSize_ s) (buffer_ s) (bufferSize_ s)
    (basePtsOffset_ s) v (updating s) (timestampOffset_ s) (metadataTrack_ s)
    (inbandTextTrack_ s) (updateend_once s) (throwDataSuperSecret s)
    (encodedHeaderSuperSecret s) (timers s) (swf_requests s) (effects s).

Definition set_updating (v : bool) (s : State) : State :=
  mkState (constants s) (chunkSize_ s) (buffer_ s) (bufferSize_ s)
    (basePtsOffset_ s) (mediaSource_ s) v (timestampOffset_ s)
    (metadataTrack_ s) (inbandTextTrack_ s) (updateend_once s)
    (throwDataSuperSecret s) (encodedHeaderSuperSecret s) (timers s)
    (swf_requests s) (effects s).

Definition set_timestampOffset_ (v : float) (s : State) : State :=
  mkState (constants s) (chunkSize_ s) (buffer_ s) (bufferSize_ s)
    (basePtsOffset_ s) (mediaSource_ s) (updating s) v (metadataTrack_ s)
    (inbandTextTrack_ s) (updateend_once s) (throwDataSuperSecret s)
    (encodedHeaderSuperSecret s) (timers s) (swf_requests s) (effects s).

Definition set_metadataTrack_ (v : option Track) (s : State) : State :=
  mkState (constants s) (chunkSize_ s) (buffer_ s) (bufferSize_ s)
    (basePtsOffset_ s) (mediaSource_ s) (updating s) (timestampOffset_ s) v
    (inbandTextTrack_ s) (updateend_once s) (throwDataSuperSecret s)
    (encodedHeaderSuperSecret s) (timers s) (swf_requests s) (effects s).

Definition set_inbandTextTrack_ (v : option Track) (s : State) : State :=
  mkState (constants s) (chunkSize_ s) (buffer_ s) (bufferSize_ s)
    (basePtsOffset_ s) (mediaSource_ s) (updating s) (timestampOffset_ s)
    (metadataTrack_ s) v (updateend_once s) (throwDataSuperSecret s)
    (encodedHeaderSuperSecret s) (timers s) (swf_requests s) (effects s).

Definition set_updateend_once (v : bool) (s : State) : State :=
  mkState (constants s) (chunkSize_ s) (buffer_ s) (bufferSize_ s)
    (basePtsOffset_ s) (mediaSource_ s) (updating s) (timestampOffset_ s)
    (metadataTrack_ s) (inbandTextTrack_ s) v (throwDataSuperSecret s)
    (encodedHeaderSuperSecret s) (timers s) (swf_requests s) (effects s).

Definition set_throwDataSuperSecret (v : option Chunk) (s : State) : State :=
  mkState (constants s) (chunkSize_ s) (buffer_ s) (bufferSize_ s)
    (basePtsOffset_ s) (mediaSource_ s) (updating s) (timestampOffset_ s)
    (metadataTrack_ s) (inbandTextTrack_ s) (updateend_once s) v
    (encodedHeaderSuperSecret s) (timers s) (swf_requests s) (effects s).

Definition set_encodedHeaderSuperSecret (v : option Chunk) (s : State) : State :=
  mkState (constants s) (chunkSize_ s) (buffer_ s) (bufferSize_ s)
    (basePtsOffset_ s) (mediaSource_ s) (updating s) (timestampOffset_ s)
    (metadataTrack_ s) (inbandTextTrack_ s) (updateend_once s)
    (throwDataSuperSecret s) v (timers s) (swf_requests s) (effects s).

Definition set_timers (v : nat) (s : State) : State :=
  mkState (constants s) (chunkSize_ s) (buffer_ s) (bufferSize_ s)
    (basePtsOffset_ s) (mediaSource_ s) (updating s) (timestampOffset_ s)
    (metadataTrack_ s) (inbandTextTrack_ s) (updateend_once s)
    (throwDataSuperSecret s) (encodedHeaderSuperSecret s) v (swf_requests s)
    (effects s).

Definition set_swf_requests (v : list string) (s : State) : State :=
  mkState (constants s) (chunkSize_ s) (buffer_ s) (bufferSize_ s)
    (basePtsOffset_ s) (mediaSource_ s) (updating s) (timestampOffset_ s)
    (metadataTrack_ s) (inbandTextTrack_ s) (updateend_once s)
    (throwDataSuperSecret s) (encodedHeaderSuperSecret s) (timers s) v
    (effects s).

Definition set_effects (v : list Effect) (s : State) : State :=
  mkState (constants s) (chunkSize_ s) (buffer_ s) (bufferSize_ s)
    (basePtsOffset_ s) (mediaSource_ s) (updating s) (timestampOffset_ s)
    (metadataTrack_ s) (inbandTextTrack_ s) (updateend_once s)
    (throwDataSuperSecret s) (encodedHeaderSuperSecret s) (timers s)
    (swf_requests s) v.

(** ** The monad of methods: state, and JavaScript's [throw] *)

(** How a call ends: normally with a value, or by throwing.  Either way the
    state reached is kept: assignments made before a [throw] stay made. *)
Inductive completion (A : Type) : Type :=
| Normal (v : A) (s : State)
| Throw (e : Thrown) (s : State).
Arguments Normal {A} v s.
Arguments Throw {A} e s.

Definition M (A : Type) : Type := State -> completion A.

Definition ret {A} (v : A) : M A := fun s => Normal v s.

Definition bind {A B} (c : M A) (k : A -> M B) : M B :=
  fun s => match c s with
           | Normal v s' => k v s'
           | Throw e s' => Throw e s'
           end.

Definition throw {A} (e : Thrown) : M A := fun s => Throw e s.
Definition gets {A} (f : State -> A) : M A := fun s => Normal (f s) s.
Definition modify (f : State -> State) : M unit := fun s => Normal tt (f s).

Notation "x <- c ;; k" := (bind c (fun x => k))
  (at level 61, c at next level, right associativity).
Notation "c ;; k" := (bind c (fun _ => k))
  (at level 61, right associativity).

(** The state a call ends in, however it ends. *)
Definition state_of {A} (c : completion A) : State :=
  match c with Normal _ s => s | Throw _ s => s end.

(** The thrown value, if the call threw. *)
Definition thrown_of {A} (c : completion A) : option Thrown :=
  match c with Normal _ _ => None | Throw e _ => Some e end.

(** Appends an action to the log. *)
Definition log (e : Effect) : M unit :=
  modify (fun s => set_effects (effects s ++ [e]) s).

(** The effects logged from state [s] on, when [s'] extends [s]'s log. *)
Definition new_effects (s s' : State) : list Effect :=
  skipn (List.length (effects s)) (effects s').

(** The types of the events triggered on the buffer itself, in order. *)
Fixpoint events (l : list Effect) : list string :=
  match l with
  | [] => []
  | Trigger t :: l' => t :: events l'
  | _ :: l' => events l'
  end.

(** The payloads the sink received, in order. *)
Fixpoint delivered (l : list Effect) : list Chunk :=
  match l with
  | [] => []
  | SinkReceives c :: l' => c :: delivered l'
  | _ :: l' => delivered l'
  end.

(** ** Collaborators that live outside this file *)

(** Modelled from the spec: [removeCuesFromTrack(start, end, track)], from
    the repository's [remove-cues-from-track] module, which is not among the
    sources.  The spec says it removes the caption/metadata entries in
    [[start, end)] from the track it is given; a track that does not exist
    yet is left alone. *)
Definition removeCuesFromTrack (start end_ : float) (track : option Track)
  : option Track :=
  match track with
  | None => None
  | Some cues =>
      Some (filter (fun c => negb (PrimFloat.leb start (startTime c)
                                   && PrimFloat.ltb (startTime c) end_)) cues)
  end.

(** Modelled from the spec: [createTextTracksIfNecessary(this, mediaSource,
    segment)], from the repository's [create-text-tracks-if-necessary]
    module, which is not among the sources.  The spec says it ensures the
    derived text tracks exist before any cue is added. *)
Definition createTextTracksIfNecessary (segment : Segment.t) : M unit :=
  modify (fun s =>
    let s1 := match Segment.captions segment, inbandTextTrack_ s with
              | _ :: _, None => set_inbandTextTrack_ (Some []) s
              | _, _ => s
              end in
    match Segment.metadata segment, metadataTrack_ s1 with
    | _ :: _, None => set_metadataTrack_ (Some []) s1
    | _, _ => s1
    end).

(** Modelled from the spec: [addTextTrackData(this, captions, metadata)],
    from the repository's [add-text-track-data] module, which is not among
    the sources.  The spec says it pushes the caption and metadata entries
    into their tracks. *)
Definition addTextTrackData (captions metadata : list Cue) : M unit :=
  modify (fun s =>
    let s1 := match inbandTextTrack_ s with
              | Some cues => set_inbandTextTrack_ (Some (cues ++ captions)) s
              | None => s
              end in
    match metadataTrack_ s1 with
    | Some cues => set_metadataTrack_ (Some (cues ++ metadata)) s1
    | None => s1
    end).

(** [videojs.createTimeRange()] with no argument: the empty range set. *)
Definition createTimeRange : TimeRanges := [].

(** [videojs.createTimeRanges(buffered)]: the ranges of an array of pairs,
    and the empty range set for [null] or [undefined]. *)
Definition createTimeRanges (buffered : BufferedProperty) : TimeRanges :=
  match buffered with
  | Some ranges => ranges
  | None => []
  end.

(** ** Access to the environment *)

(** [this.mediaSource_.<...>]: dereferencing a missing media source is a
    [TypeError]. *)
Definition the_mediaSource : M MediaSource :=
  fun s => match mediaSource_ s with
           | Some ms => Normal ms s
           | None => Throw TypeError s
           end.

(** [this.mediaSource_.swfObj.<method>]: the SWF object must be there and
    expose the method, or the call is a [TypeError]. *)
Definition the_swfObj (method : SwfObj -> bool) : M SwfObj :=
  ms <- the_mediaSource ;;
  match swfObj ms with
  | Some swf => if method swf then ret swf else throw TypeError
  | None => throw TypeError
  end.

(** [this.mediaSource_.swfObj.vjs_appendChunkReady(name)]: the SWF takes
    note that it has to call the global function [name]. *)
Definition swf_appendChunkReady (name : string) : M unit :=
  the_swfObj vjs_appendChunkReady ;;
  log (SwfAppendChunkReady name) ;;
  modify (fun s => set_swf_requests (swf_requests s ++ [name]) s).

(** [this.mediaSource_.swfObj.vjs_abort()]. *)
Definition swf_abort : M unit :=
  the_swfObj vjs_abort ;; log SwfAbort.

(** [this.mediaSource_.swfObj.vjs_discontinuity()]. *)
Definition swf_discontinuity : M unit :=
  the_swfObj vjs_discontinuity ;; log SwfDiscontinuity.

(** [this.transmuxer_.postMessage(m)]. *)
Definition postMessage (m : Message) : M unit := log (PostMessage m).

(** [scheduleTick(this.processBuffer_.bind(this))]: one more timer, set to
    [FlashConstants.TIME_BETWEEN_CHUNKS]. *)
Definition scheduleTick : M unit :=
  delay <- gets (fun s => TIME_BETWEEN_CHUNKS (constants s)) ;;
  log (SetTimeout delay) ;;
  modify (fun s => set_timers (S (timers s)) s).

(** The listener the constructor registers with [this.one('updateend', ...)]. *)
Definition updateend_listener : M unit :=
  the_mediaSource ;; log (TechTrigger "loadedmetadata").

(** [this.trigger({ type })].  The only listener this file registers is the
    one-shot ['updateend'] listener of the constructor; [one] unregisters it
    before it runs.  Listeners of other parties are not part of the class. *)
Definition trigger (type : string) : M unit :=
  log (Trigger type) ;;
  once <- gets updateend_once ;;
  if (type =? "updateend") && once
  then modify (set_updateend_once false) ;; updateend_listener
  else ret tt.

(** ** The class *)

(** [toDecimalPlaces] and the [buffered] getter use [Math.pow], which
    ECMAScript leaves implementation-approximated: it is a parameter. *)
Section MathPlatform.

Variable Math_pow : float -> float -> float.

(** [toDecimalPlaces(num, places)]. *)
Definition toDecimalPlaces (num : float) (places : JSValue) : float :=
  let places :=
    match places with
    | JSNumber p => if PrimFloat.ltb p 0 then 0%float else p
    | _ => 0%float
    end in
  let scale := Math_pow 10 places in
  PrimFloat.div (Math_round (PrimFloat.mul num scale)) scale.

(** The getter of [buffered]. *)
Definition buffered : M TimeRanges :=
  fun s =>
    match mediaSource_ s with
    | None => Normal createTimeRange s
    | Some ms =>
        match swfObj ms with
        | None => Normal createTimeRange s
        | Some swf =>
            match vjs_getProperty swf with
            | None => Normal createTimeRange s
            | Some getProperty =>
                let buffered := getProperty "buffered" in
                let buffered :=
                  match buffered with
                  | Some ((b00, b01) :: rest) =>
                      Some ((toDecimalPlaces b00 (JSNumber 3),
                             toDecimalPlaces b01 (JSNumber 3)) :: rest)
                  | _ => buffered
                  end in
                Normal (createTimeRanges buffered) s
            end
        end
    end.

End MathPlatform.

(** The getter of [timestampOffset]. *)
Definition get_timestampOffset : M float := gets timestampOffset_.

(** The number a value is, once [typeof] has said it is one. *)
Definition number_of (v : JSValue) : float :=
  match v with JSNumber n => n | _ => PrimFloat.nan end.

(** The setter of [timestampOffset]. *)
Definition set_timestampOffset (val : JSValue) : M unit :=
  if (typeof val =? "number") && PrimFloat.leb 0 (number_of val) then
    modify (set_timestampOffset_ (number_of val)) ;;
    swf_discontinuity ;;
    modify (set_basePtsOffset_ PrimFloat.nan) ;;
    postMessage MsgReset
  else ret tt.

(** [appendBuffer(bytes)]. *)
Definition appendBuffer (bytes : Uint8Array) : M unit :=
  u <- gets updating ;;
  if u then
    throw (InvalidStateError 11
      "SourceBuffer.append() cannot be called while an update is in progress")
  else
    modify (set_updating true) ;;
    ms <- the_mediaSource ;;
    modify (set_mediaSource_
              (Some (mkMediaSource "open" (swfObj ms) (tech_ ms)))) ;;
    log (SetReadyState "open") ;;
    trigger "update" ;;
    postMessage (MsgPush (buffer bytes) (byteOffset bytes) (byteLength bytes)) ;;
    postMessage MsgFlush.

(** [abort()]. *)
Definition abort : M unit :=
  modify (set_buffer_ []) ;;
  modify (set_bufferSize_ 0%Z) ;;
  swf_abort ;;
  u <- gets updating ;;
  if u then
    modify (set_updating false) ;;
    trigger "updateend"
  else ret tt.

(** [remove(start, end)]. *)
Definition remove (start end_ : float) : M unit :=
  modify (fun s =>
    set_metadataTrack_ (removeCuesFromTrack start end_ (metadataTrack_ s)) s) ;;
  modify (fun s =>
    set_inbandTextTrack_ (removeCuesFromTrack start end_ (inbandTextTrack_ s)) s) ;;
  trigger "update" ;;
  trigger "updateend".

(** [calculateTargetPts_(basePts, length)]. *)
Definition calculateTargetPts_ (basePts length : float) : M float :=
  b <- gets basePtsOffset_ ;;
  (if isNaN b && truthy length
   then modify (set_basePtsOffset_ basePts)
   else ret tt) ;;
  ms <- the_mediaSource ;;
  let tech := tech_ ms in
  let targetPts := 0%float in
  off <- get_timestampOffset ;;
  let targetPts :=
    if seeking tech
    then Math_max targetPts (PrimFloat.sub (currentTime tech) off)
    else targetPts in
  let targetPts := PrimFloat.mul targetPts 1000 in
  b <- gets basePtsOffset_ ;;
  let targetPts := PrimFloat.add targetPts b in
  ret targetPts.

(** [receiveBuffer_(segment)]. *)
Definition receiveBuffer_ (segment : Segment.t) : M unit :=
  createTextTracksIfNecessary segment ;;
  addTextTrackData (Segment.captions segment) (Segment.metadata segment) ;;
  targetPts <- calculateTargetPts_ (Segment.basePts segment)
                                   (Segment.length segment) ;;
  postMessage (MsgConvertTagsToData targetPts).

(** The function [processBuffer_] installs as [window.throwDataSuperSecret],
    with the chunk [b64str] its closure captured: what runs when the SWF
    calls it.  It always ends by throwing the chunk. *)
Definition throwDataSuperSecret_body (b64str : Chunk) : M unit :=
  b <- gets buffer_ ;;
  match b with
  | _ :: _ => scheduleTick
  | [] =>
      modify (set_throwDataSuperSecret None) ;;
      modify (set_updating false) ;;
      trigger "updateend"
  end ;;
  throw (ThrownString b64str).

(** [processBuffer_()]. *)
Definition processBuffer_ : M unit :=
  b <- gets buffer_ ;;
  match b with
  | [] =>
      u <- gets updating ;;
      if u then
        modify (set_updating false) ;;
        trigger "updateend"
      else ret tt
  | b64str :: rest =>
      modify (set_buffer_ rest) ;;
      modify (set_throwDataSuperSecret (Some b64str)) ;;
      swf_appendChunkReady "throwDataSuperSecret"
  end.

(** [this.transmuxer_.onmessage]. *)
Definition onmessage (event : WorkerEvent) : M unit :=
  match event with
  | EvMetadata segment => receiveBuffer_ segment
  | EvData b64 =>
      modify (fun s => set_buffer_ (buffer_ s ++ b64) s) ;;
      scheduleTick
  | EvOther _ => ret tt
  end.

(** The function the constructor installs as
    [window.encodedHeaderSuperSecret]. *)
Definition encodedHeaderSuperSecret_body (encodedHeader : Chunk) : M unit :=
  modify (set_encodedHeaderSuperSecret None) ;;
  throw (ThrownString encodedHeader).

(** The listener of the player's ['seeked'] event. *)
Definition on_seeked : M unit :=
  modify (fun s =>
    set_metadataTrack_
      (removeCuesFromTrack 0 PrimFloat.infinity (metadataTrack_ s)) s) ;;
  modify (fun s =>
    set_inbandTextTrack_
      (removeCuesFromTrack 0 PrimFloat.infinity (inbandTextTrack_ s)) s).

(** The fields as the constructor's assignments leave them, before it
    touches the SWF; [encodedHeader] is the base64 of [flv.getFlvHeader()]. *)
Definition fresh (consts : FlashConstants) (encodedHeader : Chunk)
    (mediaSource : option MediaSource) : State :=
  mkState consts (BYTES_PER_CHUNK consts) [] 0%Z PrimFloat.nan mediaSource
    false 0%float None None false None (Some encodedHeader) 0 [] [].

(** [new FlashSourceBuffer(mediaSource)].  Registering [on_seeked] with the
    player and defining the two properties leave no trace in the state. *)
Definition constructor (consts : FlashConstants) (encodedHeader : Chunk)
    (mediaSource : option MediaSource) : completion unit :=
  (swf_appendChunkReady "encodedHeaderSuperSecret" ;;
   postMessage MsgInit ;;
   modify (set_updateend_once true))
  (fresh consts encodedHeader mediaSource).

(** ** The environment: timers and the SWF *)

(** [window[name]], for the two globals this file installs. *)
Definition window_lookup (name : string) (s : State) : option (M unit) :=
  if name =? "throwDataSuperSecret"
  then option_map throwDataSuperSecret_body (throwDataSuperSecret s)
  else if name =? "encodedHeaderSuperSecret"
  then option_map encodedHeaderSuperSecret_body (encodedHeaderSuperSecret s)
  else None.

(** A timer set by [scheduleTick] fires: [processBuffer_] runs.  [None]
    when no timer is pending. *)
Definition tick (s : State) : option State :=
  match timers s with
  | O => None
  | S n => Some (state_of (processBuffer_ (set_timers n s)))
  end.

(** The SWF calls the global function it was asked, longest ago, to call,
    and takes what the function throws as the payload.  [None] when it has
    no call to make. *)
Definition swf_calls_back (s : State) : option State :=
  match swf_requests s with
  | [] => None
  | name :: rest =>
      let s1 := set_swf_requests rest s in
      match window_lookup name s1 with
      | None => Some s1
      | Some callback =>
          match callback s1 with
          | Throw (ThrownString payload) s2 =>
              Some (state_of (log (SinkReceives payload) s2))
          | c => Some (state_of c)
          end
      end
  end.

(** What the environment can do to the delivery loop. *)
Inductive Action : Type :=
| Tick
| SwfCallsBack.

Definition step (a : Action) (s : State) : option State :=
  match a with
  | Tick => tick s
  | SwfCallsBack => swf_calls_back s
  end.

(** A schedule of environment actions; [None] as soon as one of them is not
    enabled. *)
Fixpoint steps (acts : list Action) (s : State) : option State :=
  match acts with
  | [] => Some s
  | a :: acts' =>
      match step a s with
      | Some s' => steps acts' s'
      | None => None
      end
  end.


(** The SWF object is there and exposes [method]. *)
Definition sink_exposes (method : SwfObj -> bool) (s : State) : bool :=
  match mediaSource_ s with
  | Some ms => match swfObj ms with
               | Some swf => method swf
               | None => false
               end
  | None => false
  end.

(** The number of [vjs_appendChunkReady('throwDataSuperSecret')] calls in a
    log: the chunks handed to the sink. *)
Fixpoint handed (l : list Effect) : nat :=
  match l with
  | [] => 0
  | SwfAppendChunkReady name :: l' =>
      (if name =? "throwDataSuperSecret" then 1 else 0) + handed l'
  | _ :: l' => handed l'
  end.

(** ** Everything that can happen to a buffer *)

Section Operations.

Variable Math_pow : float -> float -> float.

Inductive Op : Type :=
| OpAppendBuffer (bytes : Uint8Array)
| OpAbort
| OpRemove (start end_ : float)
| OpSetTimestampOffset (val : JSValue)
| OpGetTimestampOffset
| OpGetBuffered
| OpOnmessage (event : WorkerEvent)
| OpCalculateTargetPts (basePts length : float)
| OpTick
| OpSwfCallsBack
| OpSeeked
(* the owner replaces or mutates the media source, its SWF or its tech *)
| OpEnvironment (mediaSource : option MediaSource).

(** The state after an operation, whether it returned or threw; a timer
    or a callback that is not pending does nothing. *)
Definition exec (op : Op) (s : State) : State :=
  match op with
  | OpAppendBuffer bytes => state_of (appendBuffer bytes s)
  | OpAbort => state_of (abort s)
  | OpRemove start end_ => state_of (remove start end_ s)
  | OpSetTimestampOffset val => state_of (set_timestampOffset val s)
  | OpGetTimestampOffset => state_of (get_timestampOffset s)
  | OpGetBuffered => state_of (buffered Math_pow s)
  | OpOnmessage event => state_of (onmessage event s)
  | OpCalculateTargetPts basePts length =>
      state_of (calculateTargetPts_ basePts length s)
  | OpTick => match tick s with Some s' => s' | None => s end
  | OpSwfCallsBack => match swf_calls_back s with Some s' => s' | None => s end
  | OpSeeked => state_of (on_seeked s)
  | OpEnvironment mediaSource => set_mediaSource_ mediaSource s
  end.

(** A write to [timestampOffset] that the setter accepts. *)
Definition accepted_write (op : Op) : bool :=
  match op with
  | OpSetTimestampOffset val =>
      (typeof val =? "number") && PrimFloat.leb 0 (number_of val)
  | _ => false
  end.

Definition exec_all (ops : list Op) (s : State) : State :=
  fold_left (fun s op => exec op s) ops s.

End Operations.

(** ** The delivery loop's states *)

(** The three states of the delivery loop, for a loop that started in state
    [s0] with the queue [cs]; [l] is what the loop has logged so far. *)
Section DeliveryLoop.

Variable s0 : State.
Variable cs : list Chunk.






End DeliveryLoop.

(** ** Measures on states and logs *)

(** The types of the events triggered on the tech, in order. *)
Fixpoint tech_events (l : list Effect) : list string :=
  match l with
  | [] => []
  | TechTrigger t :: l' => t :: tech_events l'
  | _ :: l' => tech_events l'
  end.

(** The messages posted to the transmuxer, in order. *)
Fixpoint posted (l : list Effect) : list Message :=
  match l with
  | [] => []
  | PostMessage m :: l' => m :: posted l'
  | _ :: l' => posted l'
  end.

Definition opt_list {A} (o : option A) : list A :=
  match o with Some a => [a] | None => [] end.

(** Every chunk the buffer holds: the queue, and what the closures of the
    two [window] globals captured. *)
Definition chunk_pool (s : State) : list Chunk :=
  buffer_ s ++ opt_list (throwDataSuperSecret s)
            ++ opt_list (encodedHeaderSuperSecret s).

(** How often ['loadedmetadata'] has been triggered on the tech, plus one
    while the constructor's one-shot listener is still armed. *)
Definition loadedmetadata_budget (s : State) : nat :=
  List.length (tech_events (effects s))
  + (if updateend_once s then 1 else 0).

(** The chunks an operation brings in: those of a ['data'] message. *)
Definition data_of (op : Op) : list Chunk :=
  match op with
  | OpOnmessage (EvData b64) => b64
  | _ => []
  end.

Definition data_chunks (ops : list Op) : list Chunk :=
  flat_map data_of ops.

(** * Concrete instances *)

(** A SWF object that exposes all four methods and reports two buffered
    ranges. *)
Definition demo_swf : SwfObj :=
  mkSwfObj true true true
    (Some (fun _ => Some [(1.00048828125%float, 10.5%float);
                          (20%float, 30%float)])).

Definition demo_mediaSource : MediaSource :=
  mkMediaSource "closed" (Some demo_swf) (mkTech true 12.5%float).

Definition demo_constants : FlashConstants := mkFlashConstants 4096 10.

(** The buffer right after [new FlashSourceBuffer(demo_mediaSource)]. *)
Definition demo_state : State :=
  state_of (constructor demo_constants "RkxWAQEAAAAJAAAAAA=="
              (Some demo_mediaSource)).

(** The same buffer while an update is in progress. *)
Definition demo_updating : State := set_updating true demo_state.

Definition demo_bytes : Uint8Array := mkUint8Array [71; 64; 17; 16]%Z 0 4.

(** [Math.pow] at the one point this file needs: a platform on which
    [Math.pow(10, 3)] is [1000]. *)
Definition demo_pow (b e : float) : float :=
  if PrimFloat.eqb e 3 then PrimFloat.mul b (PrimFloat.mul b b) else 1%float.

(** The state of the spec's scenario: the SWF fetches the header, then comes
    an append, then a segment with [basePts] 1000 and length 10, then one
    ['data'] message with two chunks. *)
Definition demo_two_chunks : State :=
  exec_all demo_pow
    [OpSwfCallsBack;
     OpAppendBuffer demo_bytes;
     OpOnmessage (EvMetadata (Segment.mk 1000 10 [] []));
     OpOnmessage (EvData ["C1"; "C2"])]
    demo_state.

(** The spec's scenario with the two chunks in two ['data'] messages: two
    timers are pending. *)
Definition demo_two_timers : State :=
  exec_all demo_pow
    [OpSwfCallsBack;
     OpAppendBuffer demo_bytes;
     OpOnmessage (EvData ["C1"]);
     OpOnmessage (EvData ["C2"])]
    demo_state.

(** The buffer of [demo_two_chunks] once a timer has handed ["C1"] to the
    SWF. *)
Definition demo_handed : State :=
  exec demo_pow OpTick demo_two_chunks.

(** * Proof automation *)

(** Unfolds the monad and the methods, then computes. *)
Ltac run :=
  cbv [appendBuffer abort remove set_timestampOffset get_timestampOffset
       calculateTargetPts_ receiveBuffer_ processBuffer_ onmessage
       throwDataSuperSecret_body encodedHeaderSuperSecret_body on_seeked
       createTextTracksIfNecessary addTextTrackData
       trigger updateend_listener scheduleTick postMessage
       swf_appendChunkReady swf_abort swf_discontinuity the_swfObj
       the_mediaSource log bind ret throw gets modify state_of thrown_of];
  cbn.

(** Splits on whatever the goal still matches on. *)
Ltac cases :=
  repeat (match goal with
          | |- context [match ?x with _ => _ end] =>
              lazymatch x with
              | context [match _ with _ => _ end] => fail
              | _ => destruct x eqn:?; cbn
              end
          end).

(** * Facts about binary64 arithmetic *)

Lemma SFcompare_refl (x : spec_float) :
  x <> S754_nan -> SFcompare x x = Some Eq.
Proof.
  destruct x as [sg | sg | | sg m e]; simpl; intros H;
    try reflexivity; try congruence.
  - destruct sg; reflexivity.
  - rewrite Z.compare_refl, Pos.compare_cont_refl. destruct sg; reflexivity.
Qed.

Lemma is_nan_Prim2SF (x : float) :
  PrimFloat.is_nan x = true <-> Prim2SF x = S754_nan.
Proof.
  unfold PrimFloat.is_nan. rewrite FloatAxioms.eqb_spec. unfold SFeqb.
  split; intros H.
  - destruct (Prim2SF x) eqn:E; try reflexivity;
      rewrite SFcompare_refl in H by congruence; discriminate.
  - rewrite H. reflexivity.
Qed.

(** Adding [NaN] gives [NaN]. *)
Lemma add_nan_r (x b : float) :
  PrimFloat.is_nan b = true -> PrimFloat.is_nan (PrimFloat.add x b) = true.
Proof.
  rewrite !is_nan_Prim2SF, add_spec. intros ->.
  unfold SF64add, SFadd. destruct (Prim2SF x); reflexivity.
Qed.

(** [0 * 1000 + b] is [b], up to the sign of a zero. *)
Lemma zero_ms_plus (b : float) :
  SameValueZero (PrimFloat.add (PrimFloat.mul 0 1000) b) b = true.
Proof.
  change (PrimFloat.mul 0 1000) with 0%float.
  unfold SameValueZero.
  destruct (PrimFloat.is_nan b) eqn:Hb.
  - rewrite add_nan_r by assumption. reflexivity.
  - rewrite andb_false_r. simpl.
    assert (Hn : Prim2SF b <> S754_nan).
    { intros C. apply is_nan_Prim2SF in C. congruence. }
    rewrite FloatAxioms.eqb_spec, add_spec.
    change (Prim2SF 0) with (S754_zero false).
    unfold SFeqb, SF64add, SFadd.
    destruct (Prim2SF b) as [sg | sg | | sg m e] eqn:E; try congruence.
    + destruct sg; reflexivity.
    + destruct sg; reflexivity.
    + rewrite SFcompare_refl by congruence. reflexivity.
Qed.

(** * The numeric helpers on concrete values *)

Example Math_round_ties_go_up :
  map Math_round [2.5; (-2.5); 0.5; (-0.5); (-1.5); 1234.5]%float
  = [3; (-2); 1; (-0); (-1); 1235]%float.
Proof. reflexivity. Qed.

Example Math_round_is_exact_below_one_half :
  Math_round 0x1.fffffffffffffp-2%float = 0%float
  /\ Math_round 0x1p-1074%float = 0%float
  /\ Math_round 4503599627370497%float = 4503599627370497%float.
Proof. repeat split. Qed.

Example Math_round_keeps_special_values :
  map Math_round [PrimFloat.nan; PrimFloat.infinity; PrimFloat.neg_infinity]
  = [PrimFloat.nan; PrimFloat.infinity; PrimFloat.neg_infinity].
Proof. reflexivity. Qed.

Example Math_max_zero :
  map (Math_max 0) [(-0); (-1); 2; PrimFloat.nan; PrimFloat.neg_infinity]%float
  = [0; 0; 2; PrimFloat.nan; 0]%float.
Proof. reflexivity. Qed.

Example toDecimalPlaces_three :
  toDecimalPlaces demo_pow 1.00048828125%float (JSNumber 3) = 1%float
  (* the binary64 value closest to 2.001 *)
  /\ toDecimalPlaces demo_pow 2.00146484375%float (JSNumber 3)
     = 0x1.0020c49ba5e35p+1%float
  /\ toDecimalPlaces demo_pow 2.5%float (JSString "3") = 3%float.
Proof. repeat split. Qed.

Example constructor_returns_demo_state :
  constructor demo_constants "RkxWAQEAAAAJAAAAAA==" (Some demo_mediaSource)
  = Normal tt demo_state
  /\ effects demo_state =
       [SwfAppendChunkReady "encodedHeaderSuperSecret"; PostMessage MsgInit]
  /\ isNaN (basePtsOffset_ demo_state) = true
  /\ updating demo_state = false.
Proof. repeat split. Qed.

(** * Helper lemmas *)

(** The log of a state reached by appending [l] to the log of [s]. *)
Lemma new_effects_app (s s' : State) (l : list Effect) :
  effects s' = effects s ++ l -> new_effects s s' = l.
Proof.
  unfold new_effects. intros ->.
  rewrite skipn_app, skipn_all, Nat.sub_diag. reflexivity.
Qed.

Lemma sink_exposes_inv (method : SwfObj -> bool) (s : State) :
  sink_exposes method s = true ->
  exists ms swf,
    mediaSource_ s = Some ms /\ swfObj ms = Some swf /\ method swf = true.
Proof.
  unfold sink_exposes. destruct (mediaSource_ s) as [ms|]; [|discriminate].
  destruct (swfObj ms) as [swf|] eqn:E; [|discriminate].
  intros H. exists ms, swf. repeat split; assumption.
Qed.

(** * The claims *)

(** C1: [appendBuffer(bytes)] throws an error named [InvalidStateError]
    exactly when [updating] is true at the time of the call, and then no
    field, queue or log entry changes.  When [updating] is false (and the
    media source the buffer was built on is there), it sets [updating],
    fires ['update'], and posts ['push'] immediately followed by ['flush']
    to the transmuxer, all before it returns. *)
Theorem appendBuffer_invalid_state_iff_updating
    (bytes : Uint8Array) (s : State) :
  ((exists code message,
       thrown_of (appendBuffer bytes s) = Some (InvalidStateError code message))
   <-> updating s = true)
  /\ (updating s = true ->
      exists code message,
        appendBuffer bytes s = Throw (InvalidStateError code message) s)
  /\ (updating s = false ->
      forall ms, mediaSource_ s = Some ms ->
      exists s',
        appendBuffer bytes s = Normal tt s'
        /\ updating s' = true
        /\ buffer_ s' = buffer_ s
        /\ bufferSize_ s' = bufferSize_ s
        /\ events (new_effects s s') = ["update"]
        /\ new_effects s s' =
             [SetReadyState "open"; Trigger "update";
              PostMessage (MsgPush (buffer bytes) (byteOffset bytes)
                                   (byteLength bytes));
              PostMessage MsgFlush]).
Proof.
  split; [|split].
  - run. destruct (updating s) eqn:U; cbn.
    + split; auto. intros _. eauto.
    + split; [|discriminate]. intros (code & message & H).
      destruct (mediaSource_ s); cbn in H; discriminate.
  - intros U. run. rewrite U. eauto.
  - intros U ms Hms. run. rewrite U, Hms. cbn.
    eexists. split; [reflexivity|]. cbn.
    repeat split;
      rewrite <- !app_assoc; cbn;
      match goal with |- context [new_effects s ?s'] =>
        rewrite (new_effects_app s s' _ eq_refl) end;
      reflexivity.
Qed.

Lemma appendBuffer_invalid_state_iff_updating_witness :
  (exists code message,
      appendBuffer demo_bytes demo_updating =
      Throw (InvalidStateError code message) demo_updating)
  /\ (exists s',
        appendBuffer demo_bytes demo_state = Normal tt s'
        /\ updating s' = true
        /\ events (new_effects demo_state s') = ["update"]).
Proof.
  destruct (appendBuffer_invalid_state_iff_updating demo_bytes demo_updating)
    as (_ & Hthrow & _).
  destruct (appendBuffer_invalid_state_iff_updating demo_bytes demo_state)
    as (_ & _ & Hok).
  split.
  - exact (Hthrow eq_refl).
  - destruct (Hok eq_refl demo_mediaSource eq_refl)
      as (s' & H1 & H2 & _ & _ & H3 & _).
    exists s'. repeat split; assumption.
Defined.

(** C3: from every state in which [abort()] returns, the chunk queue is
    empty, the queued-bytes counter is zero and [updating] is false
    afterwards, and ['updateend'] is fired by the call exactly when
    [updating] was true before it.  [abort()] returns whenever the SWF
    object exposes [vjs_abort]; nothing else about the prior state matters,
    in particular no [appendBuffer] need have come before.  (Even when the
    call throws, the queue and its counter are already cleared.) *)
Theorem abort_clears_queue_and_ends_update (s : State) :
  (sink_exposes vjs_abort s = true -> exists s', abort s = Normal tt s')
  /\ (forall s', abort s = Normal tt s' ->
        buffer_ s' = []
        /\ bufferSize_ s' = 0%Z
        /\ updating s' = false
        /\ events (new_effects s s') =
             (if updating s then ["updateend"] else [])
        /\ (In (Trigger "updateend") (new_effects s s') <-> updating s = true))
  /\ buffer_ (state_of (abort s)) = []
  /\ bufferSize_ (state_of (abort s)) = 0%Z.
Proof.
  split; [|split].
  - intros H. apply sink_exposes_inv in H as (ms & swf & Hms & Hswf & Hm).
    run. rewrite Hms. cbn. rewrite Hswf, Hm. cbn.
    destruct (updating s); cbn; [|eauto].
    destruct (updateend_once s); cbn; [|eauto].
    rewrite Hms. eauto.
  - intros s'. run.
    destruct (mediaSource_ s) as [ms|] eqn:Hms; cbn; [|discriminate].
    destruct (swfObj ms) as [swf|]; cbn; [|discriminate].
    destruct (vjs_abort swf); cbn; [|discriminate].
    destruct (updating s) eqn:U; cbn.
    + destruct (updateend_once s); cbn; rewrite ?Hms; cbn;
        intros H; injection H as <-; cbn;
        (match goal with |- context [new_effects s ?s'] =>
           rewrite (new_effects_app s s' _
                      ltac:(cbn; rewrite <- ?app_assoc; reflexivity)) end);
        cbn; repeat split; auto.
    + intros H; injection H as <-; cbn.
      match goal with |- context [new_effects s ?s'] =>
        rewrite (new_effects_app s s' _ eq_refl) end.
      cbn. repeat split; auto; try discriminate.
      intros [C|[]]. discriminate.
  - run.
    destruct (mediaSource_ s) as [ms|] eqn:Hms; cbn; [|auto].
    destruct (swfObj ms) as [swf|]; cbn; [|auto].
    destruct (vjs_abort swf); cbn; [|auto].
    destruct (updating s); cbn; [|auto].
    destruct (updateend_once s); cbn; rewrite ?Hms; cbn; auto.
Qed.

Lemma abort_clears_queue_and_ends_update_witness :
  (exists s', abort demo_state = Normal tt s')
  /\ (buffer_ (state_of (abort demo_updating)) = []
      /\ updating (state_of (abort demo_updating)) = false
      /\ events (new_effects demo_updating (state_of (abort demo_updating)))
         = ["updateend"]).
Proof.
  split.
  - exact (proj1 (abort_clears_queue_and_ends_update demo_state) eq_refl).
  - destruct (proj1 (proj2 (abort_clears_queue_and_ends_update demo_updating))
                _ eq_refl) as (H1 & _ & H3 & H4 & _).
    repeat split; assumption.
Defined.

(** C6: writing [timestampOffset] with a number [n >= 0] (the SWF object
    exposing [vjs_discontinuity]) stores [n], so that reading the property
    gives it back, tells the SWF of a discontinuity, leaves the PTS baseline
    [NaN] and posts ['reset'] to the transmuxer.  Writing anything else (a
    value that is not a number, or a number for which [n >= 0] is false:
    negative or [NaN]) changes nothing at all. *)
Theorem timestampOffset_write (val : JSValue) (s : State) :
  (forall n,
      val = JSNumber n -> PrimFloat.leb 0 n = true ->
      sink_exposes vjs_discontinuity s = true ->
      exists s',
        set_timestampOffset val s = Normal tt s'
        /\ get_timestampOffset s' = Normal n s'
        /\ isNaN (basePtsOffset_ s') = true
        /\ new_effects s s' = [SwfDiscontinuity; PostMessage MsgReset]
        /\ buffer_ s' = buffer_ s
        /\ updating s' = updating s)
  /\ ((forall n, val = JSNumber n -> PrimFloat.leb 0 n = false) ->
      set_timestampOffset val s = Normal tt s).
Proof.
  split.
  - intros n -> Hn Hsink.
    apply sink_exposes_inv in Hsink as (ms & swf & Hms & Hswf & Hm).
    unfold set_timestampOffset. cbn [typeof number_of]. rewrite Hn.
    run. rewrite Hms. cbn. rewrite Hswf, Hm. cbn.
    eexists. split; [reflexivity|]. cbn. repeat split.
    match goal with |- context [new_effects s ?s'] =>
      rewrite (new_effects_app s s' _
                 ltac:(cbn; rewrite <- ?app_assoc; reflexivity)) end.
    reflexivity.
  - intros H. unfold set_timestampOffset.
    destruct val; cbn; try reflexivity.
    rewrite (H n eq_refl). reflexivity.
Qed.

Lemma timestampOffset_write_witness :
  (exists s',
      set_timestampOffset (JSNumber 5) demo_state = Normal tt s'
      /\ get_timestampOffset s' = Normal 5%float s'
      /\ isNaN (basePtsOffset_ s') = true)
  /\ set_timestampOffset (JSNumber (-1)) demo_state = Normal tt demo_state
  /\ set_timestampOffset (JSString "5") demo_state = Normal tt demo_state.
Proof.
  split; [|split].
  - destruct (proj1 (timestampOffset_write (JSNumber 5) demo_state)
                5%float eq_refl eq_refl eq_refl) as (s' & H1 & H2 & H3 & _).
    exists s'. repeat split; assumption.
  - apply (proj2 (timestampOffset_write (JSNumber (-1)) demo_state)).
    intros n E. injection E as <-. reflexivity.
  - apply (proj2 (timestampOffset_write (JSString "5") demo_state)).
    intros n E. discriminate E.
Defined.

(** C7: for every [start], [end] and prior state, [remove(start, end)]
    leaves the chunk queue and its size counter as they were (and with them
    [updating], the PTS baseline, the timers and the SWF's pending calls:
    only the two text tracks may lose cues), and before it ends it has fired
    exactly ['update'] and then ['updateend'] on the buffer.  The call
    returns, unless the constructor's one-shot ['updateend'] listener is
    still armed and finds no media source. *)
Theorem remove_keeps_queue_and_fires_update_updateend
    (start end_ : float) (s : State) :
  let s' := state_of (remove start end_ s) in
  buffer_ s' = buffer_ s
  /\ bufferSize_ s' = bufferSize_ s
  /\ events (new_effects s s') = ["update"; "updateend"]
  /\ updating s' = updating s
  /\ basePtsOffset_ s' = basePtsOffset_ s
  /\ timers s' = timers s
  /\ swf_requests s' = swf_requests s
  /\ metadataTrack_ s' = removeCuesFromTrack start end_ (metadataTrack_ s)
  /\ inbandTextTrack_ s' = removeCuesFromTrack start end_ (inbandTextTrack_ s)
  /\ (remove start end_ s = Normal tt s'
      \/ (updateend_once s = true /\ mediaSource_ s = None)).
Proof.
  run.
  destruct (updateend_once s) eqn:O; cbn.
  - destruct (mediaSource_ s) as [ms|] eqn:Hms; cbn;
      (match goal with |- context [new_effects s ?s'] =>
         rewrite (new_effects_app s s' _
                    ltac:(cbn; rewrite <- ?app_assoc; reflexivity)) end);
      cbn; repeat split; auto.
  - match goal with |- context [new_effects s ?s'] =>
      rewrite (new_effects_app s s' _
                 ltac:(cbn; rewrite <- ?app_assoc; reflexivity)) end.
    cbn; repeat split; auto.
Qed.

(** C10: every [appendBuffer] call made while [updating] is false, on a
    buffer whose media source is there, sets that media source's
    [readyState] to ['open'], whatever it was, and does so before the bytes
    are posted to the transmuxer. *)
Theorem appendBuffer_opens_media_source
    (bytes : Uint8Array) (s : State) (ms : MediaSource) :
  updating s = false ->
  mediaSource_ s = Some ms ->
  exists s',
    appendBuffer bytes s = Normal tt s'
    /\ mediaSource_ s' = Some (mkMediaSource "open" (swfObj ms) (tech_ ms))
    /\ exists before after,
         new_effects s s' =
           before ++ [SetReadyState "open"] ++ after
           /\ (forall m, ~ In (PostMessage m) before)
           /\ In (PostMessage (MsgPush (buffer bytes) (byteOffset bytes)
                                       (byteLength bytes))) after.
Proof.
  intros U Hms. run. rewrite U, Hms. cbn.
  eexists. split; [reflexivity|]. cbn. split; [reflexivity|].
  exists [], [Trigger "update";
              PostMessage (MsgPush (buffer bytes) (byteOffset bytes)
                                   (byteLength bytes));
              PostMessage MsgFlush].
  split; [|split].
  - apply new_effects_app. cbn. rewrite <- !app_assoc. reflexivity.
  - intros m [].
  - cbn. auto.
Qed.

Lemma appendBuffer_opens_media_source_witness :
  exists s',
    appendBuffer demo_bytes demo_state = Normal tt s'
    /\ option_map readyState (mediaSource_ s') = Some "open".
Proof.
  destruct (appendBuffer_opens_media_source demo_bytes demo_state
              demo_mediaSource eq_refl eq_refl) as (s' & H1 & H2 & _).
  exists s'. split; [assumption|]. rewrite H2. reflexivity.
Defined.

(** C8: reading [buffered] when the sink is unavailable (no media source,
    no SWF object on it, or no [vjs_getProperty] on the SWF object) returns
    the empty range set and raises nothing.  When the SWF answers with a
    non-empty list of ranges, the first range's start and end are each
    replaced by [Math.round(x * 1000) / 1000], their value rounded to three
    decimal places, the other ranges are passed on as they are, and that is
    the range set returned.  ([Math.pow(10, 3)] is taken to be [1000].) *)
Theorem buffered_empty_without_sink_and_rounds_first_range
    (Math_pow : float -> float -> float) (s : State) :
  (mediaSource_ s = None
   \/ (exists ms, mediaSource_ s = Some ms /\ swfObj ms = None)
   \/ (exists ms swf,
         mediaSource_ s = Some ms /\ swfObj ms = Some swf
         /\ vjs_getProperty swf = None) ->
   buffered Math_pow s = Normal [] s)
  /\ (Math_pow 10%float 3%float = 1000%float ->
      forall ms swf getProperty b00 b01 rest,
        mediaSource_ s = Some ms ->
        swfObj ms = Some swf ->
        vjs_getProperty swf = Some getProperty ->
        getProperty "buffered" = Some ((b00, b01) :: rest) ->
        buffered Math_pow s =
          Normal
            ((PrimFloat.div (Math_round (PrimFloat.mul b00 1000)) 1000,
              PrimFloat.div (Math_round (PrimFloat.mul b01 1000)) 1000)
               :: rest) s).
Proof.
  split.
  - unfold buffered.
    intros [H | [(ms & H1 & H2) | (ms & swf & H1 & H2 & H3)]].
    + rewrite H. reflexivity.
    + rewrite H1, H2. reflexivity.
    + rewrite H1, H2, H3. reflexivity.
  - intros Hpow ms swf getProperty b00 b01 rest H1 H2 H3 H4.
    unfold buffered. rewrite H1, H2, H3, H4.
    unfold toDecimalPlaces.
    change (PrimFloat.ltb 3 0) with false. cbv iota.
    rewrite Hpow. reflexivity.
Qed.

Lemma buffered_empty_without_sink_and_rounds_first_range_witness :
  buffered demo_pow (set_mediaSource_ None demo_state)
    = Normal [] (set_mediaSource_ None demo_state)
  /\ buffered demo_pow demo_state
     = Normal [(1%float, 10.5%float); (20%float, 30%float)] demo_state.
Proof.
  split.
  - apply (proj1 (buffered_empty_without_sink_and_rounds_first_range
                    demo_pow (set_mediaSource_ None demo_state))).
    left. reflexivity.
  - exact (proj2 (buffered_empty_without_sink_and_rounds_first_range
                    demo_pow demo_state)
             eq_refl demo_mediaSource demo_swf _ _ _ _
             eq_refl eq_refl eq_refl eq_refl).
Defined.

(** ** The PTS baseline *)

Lemma truthy_zero (len : float) : PrimFloat.eqb len 0 = true -> truthy len = false.
Proof. unfold truthy. intros ->. apply andb_false_r. Qed.

Lemma truthy_nonzero (len : float) : truthy len = true -> PrimFloat.eqb len 0 = false.
Proof.
  unfold truthy. destruct (PrimFloat.eqb len 0); [|reflexivity].
  rewrite andb_false_r. discriminate.
Qed.

(** What [calculateTargetPts_] leaves in [basePtsOffset_]. *)
Lemma calculateTargetPts__baseline (basePts len : float) (s : State) :
  basePtsOffset_ (state_of (calculateTargetPts_ basePts len s)) =
  if isNaN (basePtsOffset_ s) && truthy len then basePts else basePtsOffset_ s.
Proof.
  run. destruct (isNaN (basePtsOffset_ s) && truthy len); cbn;
    destruct (mediaSource_ s); reflexivity.
Qed.

(** The text-track helpers touch the two tracks only. *)
Lemma text_tracks_frame (segment : Segment.t) (s : State) :
  let s' := state_of ((createTextTracksIfNecessary segment ;;
                       addTextTrackData (Segment.captions segment)
                                        (Segment.metadata segment)) s) in
  basePtsOffset_ s' = basePtsOffset_ s
  /\ mediaSource_ s' = mediaSource_ s
  /\ timestampOffset_ s' = timestampOffset_ s
  /\ effects s' = effects s
  /\ (createTextTracksIfNecessary segment ;;
      addTextTrackData (Segment.captions segment)
                       (Segment.metadata segment)) s = Normal tt s'.
Proof.
  run.
  destruct (Segment.captions segment), (Segment.metadata segment);
    cases; repeat split.
Qed.

(** [calculateTargetPts_] on a buffer whose media source is there, as one
    equation. *)
Lemma calculateTargetPts__spec
    (basePts len : float) (s : State) (ms : MediaSource) :
  mediaSource_ s = Some ms ->
  calculateTargetPts_ basePts len s =
    let s' := if isNaN (basePtsOffset_ s) && truthy len
              then set_basePtsOffset_ basePts s else s in
    let targetPts :=
      if seeking (tech_ ms)
      then Math_max 0 (PrimFloat.sub (currentTime (tech_ ms))
                                     (timestampOffset_ s))
      else 0%float in
    Normal (PrimFloat.add (PrimFloat.mul targetPts 1000) (basePtsOffset_ s'))
           s'.
Proof.
  intros Hms. run.
  destruct (isNaN (basePtsOffset_ s) && truthy len); cbn; rewrite Hms; cbn;
    destruct (seeking (tech_ ms)); reflexivity.
Qed.

Lemma receiveBuffer__unfold (segment : Segment.t) (s : State) :
  receiveBuffer_ segment s =
  (targetPts <- calculateTargetPts_ (Segment.basePts segment)
                                    (Segment.length segment) ;;
   postMessage (MsgConvertTagsToData targetPts))
    (state_of ((createTextTracksIfNecessary segment ;;
                addTextTrackData (Segment.captions segment)
                                 (Segment.metadata segment)) s)).
Proof. reflexivity. Qed.

Lemma isNaN_eq_nan (v : float) : isNaN v = true -> v = PrimFloat.nan.
Proof.
  unfold isNaN. intros H. apply Prim2SF_inj.
  apply is_nan_Prim2SF in H. rewrite H. reflexivity.
Qed.

(** C5: on a buffer whose media source is there, [calculateTargetPts_]
    returns [max(0, currentTime - timestampOffset) * 1000 + baseline] when
    the tech is seeking, and [0 * 1000 + baseline], which is [baseline]
    (as SameValueZero has it: [NaN] for [NaN], and a zero for a zero), when
    it is not; [baseline] is [basePtsOffset_] after the first step of the
    call, which sets it to [basePts] if it was [NaN] and [length] is
    truthy. *)
Theorem calculateTargetPts__value
    (basePts len : float) (s : State) (ms : MediaSource) :
  mediaSource_ s = Some ms ->
  exists targetPts s',
    calculateTargetPts_ basePts len s = Normal targetPts s'
    /\ basePtsOffset_ s' =
         (if isNaN (basePtsOffset_ s) && truthy len
          then basePts else basePtsOffset_ s)
    /\ (seeking (tech_ ms) = true ->
        targetPts =
          PrimFloat.add
            (PrimFloat.mul
               (Math_max 0 (PrimFloat.sub (currentTime (tech_ ms))
                                          (timestampOffset_ s)))
               1000)
            (basePtsOffset_ s'))
    /\ (seeking (tech_ ms) = false ->
        targetPts = PrimFloat.add (PrimFloat.mul 0 1000) (basePtsOffset_ s')
        /\ SameValueZero targetPts (basePtsOffset_ s') = true).
Proof.
  intros Hms. rewrite (calculateTargetPts__spec _ _ _ _ Hms). cbv zeta.
  eexists _, _. split; [reflexivity|]. split; [|split].
  - destruct (isNaN (basePtsOffset_ s) && truthy len); reflexivity.
  - intros ->. reflexivity.
  - intros ->. split; [reflexivity|]. apply zero_ms_plus.
Qed.

Lemma calculateTargetPts__value_witness :
  exists s',
    calculateTargetPts_ 1000 10 demo_state = Normal 13500%float s'
    /\ basePtsOffset_ s' = 1000%float.
Proof.
  destruct (calculateTargetPts__value 1000 10 demo_state demo_mediaSource
              eq_refl) as (v & s' & H1 & H2 & H3 & _).
  exists s'. rewrite (H3 eq_refl), H2 in H1. rewrite H2.
  split; [exact H1 | reflexivity].
Defined.

(** C9: when [basePtsOffset_] is [NaN] (no segment of nonzero length has
    arrived since creation or since the last accepted [timestampOffset]
    write) and the segment length is zero, [calculateTargetPts_] returns
    [NaN], and [receiveBuffer_] posts that [NaN] to the transmuxer as the
    [targetPts] of its ['convertTagsToData'] message.  (The media source is
    there, so that the call returns.) *)
Theorem zero_length_segment_posts_NaN_targetPts
    (segment : Segment.t) (s : State) (ms : MediaSource) :
  mediaSource_ s = Some ms ->
  isNaN (basePtsOffset_ s) = true ->
  PrimFloat.eqb (Segment.length segment) 0 = true ->
  (exists s',
      calculateTargetPts_ (Segment.basePts segment) (Segment.length segment) s
      = Normal PrimFloat.nan s'
      /\ isNaN (basePtsOffset_ s') = true)
  /\ (exists s',
        receiveBuffer_ segment s = Normal tt s'
        /\ new_effects s s' =
             [PostMessage (MsgConvertTagsToData PrimFloat.nan)]
        /\ isNaN (basePtsOffset_ s') = true).
Proof.
  intros Hms Hnan Hlen.
  assert (Hcalc : forall s0,
             mediaSource_ s0 = Some ms ->
             basePtsOffset_ s0 = basePtsOffset_ s ->
             calculateTargetPts_ (Segment.basePts segment)
                                 (Segment.length segment) s0
             = Normal PrimFloat.nan s0).
  { intros s0 H0 Hb. rewrite (calculateTargetPts__spec _ _ _ _ H0).
    rewrite (truthy_zero _ Hlen), andb_false_r. cbv zeta. f_equal.
    apply isNaN_eq_nan. unfold isNaN. apply add_nan_r.
    rewrite Hb. exact Hnan. }
  split.
  - exists s. split; [apply Hcalc; auto | exact Hnan].
  - rewrite receiveBuffer__unfold.
    destruct (text_tracks_frame segment s) as (Hb & Hm & _ & He & _).
    cbv zeta in Hb, Hm, He.
    set (s1 := state_of _) in *. clearbody s1.
    unfold bind at 1. rewrite (Hcalc s1) by congruence.
    eexists. split; [reflexivity|]. split.
    + apply new_effects_app. cbn. rewrite He. reflexivity.
    + cbn. rewrite Hb. exact Hnan.
Qed.

Lemma zero_length_segment_posts_NaN_targetPts_witness :
  exists s',
    receiveBuffer_ (Segment.mk 1000 0 [] []) demo_state = Normal tt s'
    /\ new_effects demo_state s' =
         [PostMessage (MsgConvertTagsToData PrimFloat.nan)].
Proof.
  destruct (proj2 (zero_length_segment_posts_NaN_targetPts
                     (Segment.mk 1000 0 [] []) demo_state demo_mediaSource
                     eq_refl eq_refl eq_refl)) as (s' & H1 & H2 & _).
  exists s'. split; assumption.
Defined.

(** Nothing but an accepted [timestampOffset] write changes a baseline that
    is set. *)
Lemma exec_keeps_set_baseline
    (Math_pow : float -> float -> float) (op : Op) (s : State) :
  accepted_write op = false ->
  isNaN (basePtsOffset_ s) = false ->
  basePtsOffset_ (exec Math_pow op s) = basePtsOffset_ s.
Proof.
  intros Hop Hset. destruct op; cbn [exec accepted_write] in *.
  - run. cases; reflexivity.
  - run. cases; reflexivity.
  - run. cases; reflexivity.
  - unfold set_timestampOffset. rewrite Hop. reflexivity.
  - reflexivity.
  - unfold buffered. cases; reflexivity.
  - destruct event as [segment | b64 | action]; cbn [onmessage].
    + rewrite receiveBuffer__unfold.
      destruct (text_tracks_frame segment s) as (Hb & _).
      cbv zeta in Hb. set (s1 := state_of _) in *. clearbody s1.
      unfold bind, postMessage, log, modify.
      pose proof (calculateTargetPts__baseline (Segment.basePts segment)
                    (Segment.length segment) s1) as Hc.
      rewrite Hb, Hset in Hc. cbn [andb] in Hc.
      destruct (calculateTargetPts_ _ _ s1); exact Hc.
    + run. reflexivity.
    + reflexivity.
  - rewrite calculateTargetPts__baseline, Hset. reflexivity.
  - unfold tick. destruct (timers s); [reflexivity|]. run. cases; reflexivity.
  - unfold swf_calls_back, window_lookup.
    destruct (swf_requests s) as [|name rest]; [reflexivity|].
    destruct (name =? "throwDataSuperSecret").
    + cbn. destruct (throwDataSuperSecret s); cbn; [|reflexivity].
      run. cases; reflexivity.
    + destruct (name =? "encodedHeaderSuperSecret"); [|reflexivity].
      cbn. destruct (encodedHeaderSuperSecret s); reflexivity.
  - run. reflexivity.
  - reflexivity.
Qed.

Lemma exec_all_keeps_set_baseline
    (Math_pow : float -> float -> float) (ops : list Op) :
  forall s,
    forallb (fun op => negb (accepted_write op)) ops = true ->
    isNaN (basePtsOffset_ s) = false ->
    basePtsOffset_ (exec_all Math_pow ops s) = basePtsOffset_ s.
Proof.
  induction ops as [|op ops IH]; intros s Hops Hset; [reflexivity|].
  cbn in Hops. apply andb_true_iff in Hops as [Hop Hops].
  apply negb_true_iff in Hop.
  pose proof (exec_keeps_set_baseline Math_pow op s Hop Hset) as E.
  cbn. unfold exec_all in IH. rewrite IH; auto. rewrite E. exact Hset.
Qed.

(** C4: [calculateTargetPts_] assigns the PTS baseline only when it is
    unset ([NaN]) and the segment length is nonzero: the baseline it leaves
    is [basePts] if the old one was [NaN] and [length] is truthy, and the
    old one otherwise.  A zero-length segment never sets it.  Once it is set
    (not [NaN]), no sequence of operations on the buffer changes it (calls
    of [calculateTargetPts_], appends, aborts, removes, worker messages,
    timers, SWF callbacks, rejected [timestampOffset] writes) unless the
    sequence has an accepted [timestampOffset] write: so it is set at most
    once between two such writes. *)
Theorem baseline_set_at_most_once_per_epoch
    (Math_pow : float -> float -> float)
    (basePts len : float) (s : State) :
  let s' := state_of (calculateTargetPts_ basePts len s) in
  basePtsOffset_ s' =
    (if isNaN (basePtsOffset_ s) && truthy len
     then basePts else basePtsOffset_ s)
  /\ (basePtsOffset_ s' <> basePtsOffset_ s ->
      isNaN (basePtsOffset_ s) = true /\ PrimFloat.eqb len 0 = false)
  /\ (PrimFloat.eqb len 0 = true -> basePtsOffset_ s' = basePtsOffset_ s)
  /\ (isNaN (basePtsOffset_ s) = false ->
      forall ops,
        forallb (fun op => negb (accepted_write op)) ops = true ->
        basePtsOffset_ (exec_all Math_pow ops s) = basePtsOffset_ s).
Proof.
  cbv zeta. rewrite calculateTargetPts__baseline.
  split; [reflexivity|]. split; [|split].
  - destruct (isNaN (basePtsOffset_ s)) eqn:Hn; cbn; [|congruence].
    destruct (truthy len) eqn:Ht; [|congruence].
    intros _. split; [reflexivity|]. apply truthy_nonzero, Ht.
  - intros Hz. rewrite (truthy_zero _ Hz), andb_false_r. reflexivity.
  - intros Hset ops Hops. apply exec_all_keeps_set_baseline; assumption.
Qed.

Lemma baseline_set_at_most_once_per_epoch_witness :
  basePtsOffset_ (state_of (calculateTargetPts_ 1000 0 demo_state))
    = basePtsOffset_ demo_state
  /\ basePtsOffset_
       (exec_all demo_pow
          [OpCalculateTargetPts 2000 10;
           OpOnmessage (EvMetadata (Segment.mk 3000 5 [] []));
           OpAbort;
           OpSetTimestampOffset (JSNumber (-1))]
          (state_of (calculateTargetPts_ 1000 10 demo_state)))
     = 1000%float.
Proof.
  split.
  - exact (proj1 (proj2 (proj2
             (baseline_set_at_most_once_per_epoch demo_pow 1000 0 demo_state)))
             eq_refl).
  - exact (proj2 (proj2 (proj2
             (baseline_set_at_most_once_per_epoch demo_pow 2000 10
                (state_of (calculateTargetPts_ 1000 10 demo_state)))))
             eq_refl
             [OpCalculateTargetPts 2000 10;
              OpOnmessage (EvMetadata (Segment.mk 3000 5 [] []));
              OpAbort;
              OpSetTimestampOffset (JSNumber (-1))]
             eq_refl).
Defined.

(** ** The delivery loop *)

Lemma events_app (l1 l2 : list Effect) :
  events (l1 ++ l2) = events l1 ++ events l2.
Proof.
  induction l1 as [|e l1 IH]; [reflexivity|].
  destruct e; cbn; rewrite IH; reflexivity.
Qed.

Lemma delivered_app (l1 l2 : list Effect) :
  delivered (l1 ++ l2) = delivered l1 ++ delivered l2.
Proof.
  induction l1 as [|e l1 IH]; [reflexivity|].
  destruct e; cbn; rewrite IH; reflexivity.
Qed.


Section DeliveryLoopProofs.

Variable s0 : State.
Variable cs : list Chunk.
Hypothesis sink_ready : sink_exposes vjs_appendChunkReady s0 = true.







End DeliveryLoopProofs.



(** * Further properties of the class *)

Lemma tech_events_app (l1 l2 : list Effect) :
  tech_events (l1 ++ l2) = tech_events l1 ++ tech_events l2.
Proof.
  induction l1 as [|e l1 IH]; [reflexivity|].
  destruct e; cbn; rewrite IH; reflexivity.
Qed.

(** Unfolds one operation down to the fields it reads and splits on them. *)
Ltac op_cases :=
  cbn [exec]; unfold tick, swf_calls_back, window_lookup, buffered, option_map;
  run; cases.

Ltac by_op op :=
  destruct op as [bytes | | start end_ | val | | | [segment | b64 | action]
                 | basePts len | | | | mediaSource];
  op_cases.

Lemma exec_updating (Math_pow : float -> float -> float) (op : Op) (s : State) :
  updating (exec Math_pow op s) = true ->
  updating s = true \/ exists bytes, op = OpAppendBuffer bytes.
Proof.
  by_op op; cbn; eauto; try discriminate.
Qed.

Lemma exec_all_cons (Math_pow : float -> float -> float)
    (op : Op) (ops : list Op) (s : State) :
  exec_all Math_pow (op :: ops) s = exec_all Math_pow ops (exec Math_pow op s).
Proof. reflexivity. Qed.

(** X1: only [appendBuffer] starts an update.  If [updating] is false, it
    is still false after any sequence of operations on the buffer (aborts,
    removes, [timestampOffset] writes, worker messages, timers, SWF
    callbacks, changes of the media source) that has no [appendBuffer]
    call in it. *)
Theorem only_appendBuffer_sets_updating
    (Math_pow : float -> float -> float) (ops : list Op) :
  forall s,
    updating s = false ->
    Forall (fun op => forall bytes, op <> OpAppendBuffer bytes) ops ->
    updating (exec_all Math_pow ops s) = false.
Proof.
  induction ops as [|op ops IH]; intros s Hu Hops; [exact Hu|].
  inversion Hops as [|? ? Hop Hrest]; subst.
  rewrite exec_all_cons. apply IH; [|exact Hrest].
  destruct (updating (exec Math_pow op s)) eqn:E; [|reflexivity].
  destruct (exec_updating Math_pow op s E) as [H | (bytes & H)].
  - congruence.
  - exfalso. exact (Hop bytes H).
Qed.

Lemma only_appendBuffer_sets_updating_witness :
  updating
    (exec_all demo_pow
       [OpOnmessage (EvData ["C1"]); OpTick; OpSwfCallsBack; OpAbort;
        OpRemove 0 10; OpSetTimestampOffset (JSNumber 5)]
       demo_state) = false.
Proof.
  apply only_appendBuffer_sets_updating; [reflexivity|].
  repeat constructor; discriminate.
Defined.

Lemma exec_queue (Math_pow : float -> float -> float) (op : Op) (s : State) :
  (forall b64, op <> OpOnmessage (EvData b64)) ->
  exists k, buffer_ (exec Math_pow op s) = skipn k (buffer_ s).
Proof.
  intros Hop.
  by_op op; cbn in *;
    first [ exists 0; cbn; congruence
          | exists 1; cbn; congruence
          | eexists (List.length _); rewrite skipn_all; reflexivity
          | exfalso; eapply Hop; reflexivity ].
Qed.

Lemma skipn_skipn_add {A} (k j : nat) (l : list A) :
  skipn k (skipn j l) = skipn (j + k) l.
Proof.
  revert l. induction j as [|j IH]; intros l; [reflexivity|].
  destruct l as [|a l]; cbn; [apply skipn_nil | apply IH].
Qed.

(** X2: the chunk queue is first-in first-out.  A ['data'] message appends
    its chunks at the back, in their order; any sequence of other
    operations leaves a suffix of the queue it found: chunks leave at the
    front (a timer hands over the head) or all at once ([abort]), and are
    never reordered, duplicated or inserted. *)
Theorem queue_is_fifo
    (Math_pow : float -> float -> float) (ops : list Op) (s : State) :
  (forall b64,
      buffer_ (exec Math_pow (OpOnmessage (EvData b64)) s) = buffer_ s ++ b64)
  /\ (Forall (fun op => forall b64, op <> OpOnmessage (EvData b64)) ops ->
      exists k, buffer_ (exec_all Math_pow ops s) = skipn k (buffer_ s)).
Proof.
  split; [reflexivity|].
  revert s. induction ops as [|op ops IH]; intros s Hops.
  - exists 0. reflexivity.
  - inversion Hops as [|? ? Hop Hrest]; subst.
    rewrite exec_all_cons.
    destruct (IH (exec Math_pow op s) Hrest) as (k & Hk).
    destruct (exec_queue Math_pow op s Hop) as (j & Hj).
    exists (j + k). rewrite Hk, Hj. apply skipn_skipn_add.
Qed.

Lemma queue_is_fifo_witness :
  exists k,
    buffer_ (exec_all demo_pow [OpTick; OpRemove 0 10; OpSwfCallsBack]
                      demo_two_chunks)
    = skipn k ["C1"; "C2"].
Proof.
  apply (proj2 (queue_is_fifo demo_pow
                  [OpTick; OpRemove 0 10; OpSwfCallsBack] demo_two_chunks)).
  repeat constructor; discriminate.
Defined.

Lemma exec_keeps_timestampOffset
    (Math_pow : float -> float -> float) (op : Op) (s : State) :
  accepted_write op = false ->
  timestampOffset_ (exec Math_pow op s) = timestampOffset_ s.
Proof.
  intros Hop.
  destruct op as [bytes | | start end_ | val | | | event
                 | basePts len | | | | mediaSource];
    try (op_cases; reflexivity).
  cbn [exec accepted_write] in *. unfold set_timestampOffset.
  rewrite Hop. reflexivity.
Qed.

(** X3: reading [timestampOffset] returns the last number [n >= 0] that was
    written to it, whatever else happened to the buffer since, and whether
    or not that write got as far as the SWF: the setter stores the value
    before it calls [vjs_discontinuity], so the value is kept even when
    that call throws. *)
Theorem timestampOffset_reads_last_accepted_write
    (Math_pow : float -> float -> float)
    (n : float) (ops : list Op) (s : State) :
  PrimFloat.leb 0 n = true ->
  forallb (fun op => negb (accepted_write op)) ops = true ->
  let s' := exec_all Math_pow ops
              (exec Math_pow (OpSetTimestampOffset (JSNumber n)) s) in
  get_timestampOffset s' = Normal n s'.
Proof.
  intros Hn Hops. cbv zeta. unfold get_timestampOffset, gets. f_equal.
  assert (Hset : timestampOffset_
                   (exec Math_pow (OpSetTimestampOffset (JSNumber n)) s) = n).
  { cbn [exec]. unfold set_timestampOffset. cbn [typeof number_of].
    rewrite Hn. run. cases; reflexivity. }
  revert Hset Hops. generalize (exec Math_pow (OpSetTimestampOffset (JSNumber n)) s).
  induction ops as [|op ops IH]; intros s1 Hset Hops; [exact Hset|].
  cbn in Hops. apply andb_true_iff in Hops as [Hop Hops].
  apply negb_true_iff in Hop.
  rewrite exec_all_cons. apply IH; [|exact Hops].
  rewrite exec_keeps_timestampOffset; assumption.
Qed.

Lemma timestampOffset_reads_last_accepted_write_witness :
  thrown_of (set_timestampOffset (JSNumber 5) (set_mediaSource_ None demo_state))
    = Some TypeError
  /\ get_timestampOffset
       (exec_all demo_pow
          [OpSetTimestampOffset (JSNumber (-3));
           OpSetTimestampOffset (JSString "9");
           OpAppendBuffer demo_bytes; OpAbort]
          (exec demo_pow (OpSetTimestampOffset (JSNumber 5))
             (set_mediaSource_ None demo_state)))
     = Normal 5%float
         (exec_all demo_pow
            [OpSetTimestampOffset (JSNumber (-3));
             OpSetTimestampOffset (JSString "9");
             OpAppendBuffer demo_bytes; OpAbort]
            (exec demo_pow (OpSetTimestampOffset (JSNumber 5))
               (set_mediaSource_ None demo_state))).
Proof.
  split; [reflexivity|].
  exact (timestampOffset_reads_last_accepted_write demo_pow 5
           [OpSetTimestampOffset (JSNumber (-3));
            OpSetTimestampOffset (JSString "9");
            OpAppendBuffer demo_bytes; OpAbort]
           (set_mediaSource_ None demo_state) eq_refl eq_refl).
Defined.

Lemma exec_counters (Math_pow : float -> float -> float) (op : Op) (s : State) :
  chunkSize_ (exec Math_pow op s) = chunkSize_ s
  /\ (bufferSize_ (exec Math_pow op s) = bufferSize_ s
      \/ bufferSize_ (exec Math_pow op s) = 0%Z).
Proof.
  by_op op; cbn; auto.
Qed.

(** X4: the two size fields never follow the queue.  No operation changes
    [chunkSize_], and the only write to [bufferSize_] after the constructor
    is [abort]'s reset to [0]: from a buffer whose counter is [0] (as the
    constructor leaves it) it is [0] after any sequence of operations,
    however many chunks are queued. *)
Theorem size_fields_never_follow_queue
    (Math_pow : float -> float -> float) (ops : list Op) :
  forall s,
    chunkSize_ (exec_all Math_pow ops s) = chunkSize_ s
    /\ (bufferSize_ s = 0%Z -> bufferSize_ (exec_all Math_pow ops s) = 0%Z).
Proof.
  induction ops as [|op ops IH]; intros s; [split; auto|].
  rewrite exec_all_cons.
  destruct (IH (exec Math_pow op s)) as (Hc & Hb).
  destruct (exec_counters Math_pow op s) as (Hc1 & Hb1).
  split.
  - rewrite Hc. exact Hc1.
  - intros H0. apply Hb. destruct Hb1 as [E | E]; congruence.
Qed.

Lemma size_fields_never_follow_queue_witness :
  bufferSize_ demo_two_chunks = 0%Z
  /\ buffer_ demo_two_chunks = ["C1"; "C2"].
Proof.
  split; [|reflexivity].
  apply (proj2 (size_fields_never_follow_queue demo_pow
                  [OpSwfCallsBack; OpAppendBuffer demo_bytes;
                   OpOnmessage (EvMetadata (Segment.mk 1000 10 [] []));
                   OpOnmessage (EvData ["C1"; "C2"])] demo_state)).
  reflexivity.
Defined.

Lemma exec_budget (Math_pow : float -> float -> float) (op : Op) (s : State) :
  loadedmetadata_budget (exec Math_pow op s) <= loadedmetadata_budget s.
Proof.
  unfold loadedmetadata_budget.
  by_op op; cbn;
    rewrite ?tech_events_app, ?length_app; cbn; lia.
Qed.

Lemma exec_all_budget (Math_pow : float -> float -> float) (ops : list Op) :
  forall s,
    loadedmetadata_budget (exec_all Math_pow ops s) <= loadedmetadata_budget s.
Proof.
  induction ops as [|op ops IH]; intros s; [apply Nat.le_refl|].
  rewrite exec_all_cons.
  apply Nat.le_trans with (loadedmetadata_budget (exec Math_pow op s)).
  - apply IH.
  - apply exec_budget.
Qed.

(** X5: ['loadedmetadata'] is triggered on the tech at most once in the
    life of a buffer: the listener the constructor registers with [one] is
    unregistered before it runs, and nothing registers it again.  Whatever
    sequence of operations follows [new FlashSourceBuffer(mediaSource)],
    the log holds at most one such trigger. *)
Theorem loadedmetadata_at_most_once
    (Math_pow : float -> float -> float)
    (consts : FlashConstants) (encodedHeader : Chunk)
    (mediaSource : option MediaSource) (s0 : State) (ops : list Op) :
  constructor consts encodedHeader mediaSource = Normal tt s0 ->
  List.length (tech_events (effects (exec_all Math_pow ops s0))) <= 1.
Proof.
  intros Hnew.
  assert (H0 : loadedmetadata_budget s0 <= 1).
  { revert Hnew. unfold constructor, fresh, loadedmetadata_budget. run.
    cases; intros H; try discriminate; injection H as <-; cbn; lia. }
  pose proof (exec_all_budget Math_pow ops s0) as H.
  unfold loadedmetadata_budget in H at 1. lia.
Qed.

Lemma loadedmetadata_at_most_once_witness :
  List.length
    (tech_events
       (effects (exec_all demo_pow
                   [OpSwfCallsBack; OpAppendBuffer demo_bytes;
                    OpOnmessage (EvData ["C1"; "C2"]);
                    OpTick; OpSwfCallsBack; OpTick; OpSwfCallsBack;
                    OpRemove 0 1; OpAppendBuffer demo_bytes; OpAbort]
                   demo_state)))
  <= 1.
Proof.
  exact (loadedmetadata_at_most_once demo_pow demo_constants
           "RkxWAQEAAAAJAAAAAA==" (Some demo_mediaSource) demo_state
           [OpSwfCallsBack; OpAppendBuffer demo_bytes;
            OpOnmessage (EvData ["C1"; "C2"]);
            OpTick; OpSwfCallsBack; OpTick; OpSwfCallsBack;
            OpRemove 0 1; OpAppendBuffer demo_bytes; OpAbort]
           eq_refl).
Defined.

(** Closes a goal about membership in appended lists. *)
Ltac in_pool :=
  cbn in *;
  repeat (match goal with H : _ = _ |- _ => rewrite H; clear H end);
  intros ? ?; cbn in *; rewrite ?in_app_iff in *; cbn in *;
  rewrite ?in_app_iff in *; tauto.

Lemma exec_pool (Math_pow : float -> float -> float) (op : Op) (s : State) :
  exists l,
    effects (exec Math_pow op s) = effects s ++ l
    /\ incl (delivered l) (chunk_pool s)
    /\ incl (chunk_pool (exec Math_pow op s)) (chunk_pool s ++ data_of op).
Proof.
  unfold chunk_pool.
  by_op op; cbn; rewrite <- ?app_assoc; cbn;
    first [ exists []; rewrite app_nil_r; split; [reflexivity|]
          | eexists; split; [reflexivity|] ];
    cbn; split; in_pool.
Qed.

(** X6: the SWF is only ever given what the buffer was given to deliver.
    Whatever sequence of operations runs on a buffer, its log only grows,
    and every payload the SWF receives in that time is the encoded header,
    a chunk that was already queued or installed in
    [window.throwDataSuperSecret], or a chunk of a ['data'] message of the
    sequence: no operation invents, alters or merges chunks. *)
Theorem sink_receives_only_given_chunks
    (Math_pow : float -> float -> float) (ops : list Op) :
  forall s,
  exists l,
    effects (exec_all Math_pow ops s) = effects s ++ l
    /\ incl (delivered l) (chunk_pool s ++ data_chunks ops)
    /\ incl (chunk_pool (exec_all Math_pow ops s))
            (chunk_pool s ++ data_chunks ops).
Proof.
  induction ops as [|op ops IH]; intros s.
  - exists []. rewrite !app_nil_r. cbn. repeat split.
    + intros x [].
    + apply incl_refl.
  - rewrite exec_all_cons.
    destruct (exec_pool Math_pow op s) as (l1 & E1 & D1 & P1).
    destruct (IH (exec Math_pow op s)) as (l2 & E2 & D2 & P2).
    exists (l1 ++ l2). rewrite E2, E1, app_assoc, delivered_app.
    unfold data_chunks in *. cbn [flat_map].
    split; [reflexivity|]. split.
    + intros x Hx. apply in_app_iff in Hx as [Hx | Hx].
      * apply D1 in Hx. rewrite !in_app_iff in *. tauto.
      * apply D2 in Hx. apply in_app_iff in Hx as [Hx | Hx].
        -- apply P1 in Hx. rewrite !in_app_iff in *. tauto.
        -- rewrite !in_app_iff. tauto.
    + intros x Hx. apply P2 in Hx. apply in_app_iff in Hx as [Hx | Hx].
      * apply P1 in Hx. rewrite !in_app_iff in *. tauto.
      * rewrite !in_app_iff. tauto.
Qed.

Lemma exec_all_pool_without_data
    (Math_pow : float -> float -> float) (ops : list Op) :
  forall s,
    data_chunks ops = [] ->
    exists l,
      effects (exec_all Math_pow ops s) = effects s ++ l
      /\ incl (delivered l) (chunk_pool s).
Proof.
  induction ops as [|op ops IH]; intros s Hd.
  - exists []. rewrite app_nil_r. split; [reflexivity | intros x []].
  - unfold data_chunks in Hd. cbn [flat_map] in Hd.
    apply app_eq_nil in Hd as [Hop Hd].
    rewrite exec_all_cons.
    destruct (exec_pool Math_pow op s) as (l1 & E1 & D1 & P1).
    rewrite Hop, app_nil_r in P1.
    destruct (IH (exec Math_pow op s) Hd) as (l2 & E2 & D2).
    exists (l1 ++ l2). rewrite E2, E1, app_assoc, delivered_app.
    split; [reflexivity|].
    intros x Hx. apply in_app_iff in Hx as [Hx | Hx]; auto.
Qed.

Lemma skipn_length_app {A} (l l' : list A) :
  skipn (List.length l) (l ++ l') = l'.
Proof. rewrite skipn_app, skipn_all, Nat.sub_diag. reflexivity. Qed.

(** A pending timer fires on a non-empty queue: what [processBuffer_]
    leaves. *)
Lemma tick_hands_over (s : State) (c : Chunk) (rest : list Chunk) (n : nat) :
  buffer_ s = c :: rest ->
  timers s = S n ->
  sink_exposes vjs_appendChunkReady s = true ->
  exists s',
    tick s = Some s'
    /\ buffer_ s' = rest
    /\ timers s' = n
    /\ swf_requests s' = swf_requests s ++ ["throwDataSuperSecret"]
    /\ throwDataSuperSecret s' = Some c
    /\ effects s' = effects s ++ [SwfAppendChunkReady "throwDataSuperSecret"]
    /\ mediaSource_ s' = mediaSource_ s
    /\ encodedHeaderSuperSecret s' = encodedHeaderSuperSecret s.
Proof.
  intros Hb Ht Hsink.
  apply sink_exposes_inv in Hsink as (ms & swf & Hms & Hswf & Hmeth).
  unfold tick. rewrite Ht. run. rewrite Hb. cbn. rewrite Hms. cbn.
  rewrite Hswf, Hmeth. cbn.
  eexists. split; [reflexivity|]. cbn. repeat split; auto.
Qed.

(** X7: a second timer overwrites the chunk the first one handed over.
    With two timers pending (two ['data'] messages before any timer fired)
    and two chunks queued, if both timers fire before the SWF calls back,
    [processBuffer_] has called [vjs_appendChunkReady] twice, both calls
    are outstanding, and [window.throwDataSuperSecret] holds the second
    chunk only.  The first chunk is then in neither the queue nor the
    global: whatever happens next, short of new ['data'] messages, every
    payload the SWF receives is the second chunk, a chunk still queued, or
    the header. *)
Theorem second_timer_overwrites_handed_chunk
    (Math_pow : float -> float -> float)
    (s : State) (c1 c2 : Chunk) (rest : list Chunk) (n : nat) :
  buffer_ s = c1 :: c2 :: rest ->
  timers s = S (S n) ->
  swf_requests s = [] ->
  sink_exposes vjs_appendChunkReady s = true ->
  exists s2,
    steps [Tick; Tick] s = Some s2
    /\ swf_requests s2 = ["throwDataSuperSecret"; "throwDataSuperSecret"]
    /\ throwDataSuperSecret s2 = Some c2
    /\ buffer_ s2 = rest
    /\ handed (new_effects s s2) = 2
    /\ forall ops,
         data_chunks ops = [] ->
         exists l,
           effects (exec_all Math_pow ops s2) = effects s2 ++ l
           /\ incl (delivered l)
                   (rest ++ [c2] ++ opt_list (encodedHeaderSuperSecret s)).
Proof.
  intros Hb Ht Hr Hsink.
  assert (Hsteps : exists s2,
             steps [Tick; Tick] s = Some s2
             /\ swf_requests s2 = ["throwDataSuperSecret"; "throwDataSuperSecret"]
             /\ throwDataSuperSecret s2 = Some c2
             /\ buffer_ s2 = rest
             /\ encodedHeaderSuperSecret s2 = encodedHeaderSuperSecret s
             /\ effects s2 = effects s ++ [SwfAppendChunkReady "throwDataSuperSecret";
                                           SwfAppendChunkReady "throwDataSuperSecret"]).
  { destruct (tick_hands_over s c1 (c2 :: rest) (S n) Hb Ht Hsink)
      as (s1 & T1 & B1 & N1 & R1 & _ & E1 & M1 & H1).
    assert (Hsink1 : sink_exposes vjs_appendChunkReady s1 = true).
    { unfold sink_exposes in *. rewrite M1. exact Hsink. }
    destruct (tick_hands_over s1 c2 rest n B1 N1 Hsink1)
      as (s2 & T2 & B2 & _ & R2 & W2 & E2 & _ & H2).
    exists s2. cbn [steps step]. rewrite T1, T2.
    rewrite R2, R1, Hr, E2, E1, H2, H1. repeat split; auto.
    rewrite <- app_assoc. reflexivity. }
  destruct Hsteps as (s2 & Hs & Hr2 & Hw2 & Hb2 & Hh2 & He2).
  exists s2. repeat split; auto.
  - rewrite (new_effects_app s s2 _ He2). reflexivity.
  - intros ops Hd.
    destruct (exec_all_pool_without_data Math_pow ops s2 Hd) as (l & E & D).
    exists l. split; [exact E|].
    unfold chunk_pool in D. rewrite Hb2, Hw2, Hh2 in D. exact D.
Qed.

Lemma second_timer_overwrites_handed_chunk_witness :
  exists s2,
    steps [Tick; Tick] demo_two_timers = Some s2
    /\ swf_requests s2 = ["throwDataSuperSecret"; "throwDataSuperSecret"]
    /\ throwDataSuperSecret s2 = Some "C2"
    /\ buffer_ s2 = [].
Proof.
  destruct (second_timer_overwrites_handed_chunk demo_pow demo_two_timers
              "C1" "C2" [] 0 eq_refl eq_refl eq_refl eq_refl)
    as (s2 & H1 & H2 & H3 & H4 & _).
  exists s2. repeat split; assumption.
Defined.

(** X8: [abort()] does not retract a chunk that was already handed to the
    SWF.  If a chunk is handed over and the SWF has not called back yet,
    [abort()] ends the update and fires ['updateend']; when the SWF then
    calls back, the callback finds the queue empty, so it still throws the
    chunk to the SWF and fires ['updateend'] a second time. *)
Theorem abort_does_not_retract_handed_chunk (s : State) (c : Chunk) :
  swf_requests s = ["throwDataSuperSecret"] ->
  throwDataSuperSecret s = Some c ->
  updating s = true ->
  sink_exposes vjs_abort s = true ->
  exists s1 s2,
    abort s = Normal tt s1
    /\ swf_calls_back s1 = Some s2
    /\ delivered (new_effects s s2) = [c]
    /\ events (new_effects s s2) = ["updateend"; "updateend"]
    /\ updating s1 = false
    /\ updating s2 = false.
Proof.
  intros Hr Hw Hu Hsink.
  apply sink_exposes_inv in Hsink as (ms & swf & Hms & Hswf & Hmeth).
  assert (Habort : exists s1 l1,
             abort s = Normal tt s1
             /\ effects s1 = effects s ++ l1
             /\ events l1 = ["updateend"] /\ delivered l1 = []
             /\ updating s1 = false /\ buffer_ s1 = []
             /\ swf_requests s1 = swf_requests s
             /\ throwDataSuperSecret s1 = throwDataSuperSecret s
             /\ updateend_once s1 = false).
  { run. rewrite Hms. cbn. rewrite Hswf, Hmeth. cbn. rewrite Hu. cbn.
    destruct (updateend_once s) eqn:Ho; cbn; rewrite ?Hms; cbn;
      eexists _, _; (split; [reflexivity|]); cbn;
      rewrite <- ?app_assoc; (split; [reflexivity|]); cbn;
      repeat split; auto. }
  destruct Habort as (s1 & l1 & Ha & E1 & Ev1 & D1 & U1 & B1 & R1 & W1 & O1).
  exists s1.
  unfold swf_calls_back, window_lookup. rewrite R1, Hr. cbn.
  rewrite W1, Hw. cbn. run. rewrite B1. cbn. rewrite O1. cbn.
  eexists. split; [exact Ha|]. split; [reflexivity|]. cbn.
  rewrite E1, <- !app_assoc.
  match goal with |- context [new_effects s ?b] =>
    rewrite (new_effects_app s b _ eq_refl) end.
  rewrite delivered_app, events_app, D1, Ev1. cbn. repeat split; auto.
Qed.

Lemma abort_does_not_retract_handed_chunk_witness :
  exists s1 s2,
    abort demo_handed = Normal tt s1
    /\ swf_calls_back s1 = Some s2
    /\ delivered (new_effects demo_handed s2) = ["C1"]
    /\ events (new_effects demo_handed s2) = ["updateend"; "updateend"].
Proof.
  destruct (abort_does_not_retract_handed_chunk demo_handed "C1"
              eq_refl eq_refl eq_refl eq_refl)
    as (s1 & s2 & H1 & H2 & H3 & H4 & _).
  exists s1, s2. repeat split; assumption.
Defined.

(** X9: a timer that finds the queue empty.  If an update is in progress
    it ends it: [updating] becomes false and ['updateend'] is fired once,
    with nothing handed to the SWF; so an append whose ['data'] message
    carries no chunk still ends, at the timer that message sets.  If no
    update is in progress the timer changes nothing but the timer count. *)
Theorem timer_on_empty_queue
    (Math_pow : float -> float -> float) (s : State) :
  buffer_ s = [] ->
  (updating s = true ->
   timers s = 0 ->
   let s' := exec_all Math_pow [OpOnmessage (EvData []); OpTick] s in
   updating s' = false
   /\ events (new_effects s s') = ["updateend"]
   /\ handed (new_effects s s') = 0
   /\ delivered (new_effects s s') = []
   /\ buffer_ s' = [] /\ timers s' = 0)
  /\ (updating s = false ->
      forall n, timers s = S n -> tick s = Some (set_timers n s)).
Proof.
  intros Hb. split.
  - intros Hu Ht. cbv zeta. unfold exec_all. cbn [fold_left exec onmessage].
    unfold tick. run. rewrite ?Ht, ?Hb. cbn. rewrite ?Ht, ?Hb, ?Hu. cbn.
    destruct (updateend_once s); cbn;
      [destruct (mediaSource_ s); cbn|];
      (match goal with |- context [new_effects s ?b] =>
         rewrite (new_effects_app s b _
                    ltac:(cbn; rewrite <- ?app_assoc; reflexivity)) end);
      cbn; repeat split.
  - intros Hu n Ht. unfold tick. rewrite Ht. run. rewrite Hb. cbn.
    rewrite Hu. reflexivity.
Qed.

Lemma timer_on_empty_queue_witness :
  updating (exec_all demo_pow [OpOnmessage (EvData []); OpTick]
              (set_swf_requests [] demo_updating)) = false
  /\ tick (set_timers 1 demo_state) = Some (set_timers 0 (set_timers 1 demo_state)).
Proof.
  split.
  - exact (proj1 (proj1 (timer_on_empty_queue demo_pow
                           (set_swf_requests [] demo_updating) eq_refl)
                    eq_refl eq_refl)).
  - exact (proj2 (timer_on_empty_queue demo_pow (set_timers 1 demo_state)
                    eq_refl) eq_refl 0 eq_refl).
Defined.

(** X10: an accepted [timestampOffset] write on a buffer whose SWF object
    is missing or lacks [vjs_discontinuity] throws a [TypeError] after the
    new offset is stored and before anything else is done: the PTS
    baseline is not cleared and no ['reset'] is posted, so the old baseline
    stays in force under the new offset. *)
Theorem timestampOffset_write_without_sink (n : float) (s : State) :
  PrimFloat.leb 0 n = true ->
  sink_exposes vjs_discontinuity s = false ->
  set_timestampOffset (JSNumber n) s
    = Throw TypeError (set_timestampOffset_ n s)
  /\ basePtsOffset_ (state_of (set_timestampOffset (JSNumber n) s))
     = basePtsOffset_ s
  /\ new_effects s (state_of (set_timestampOffset (JSNumber n) s)) = [].
Proof.
  intros Hn Hsink.
  assert (E : set_timestampOffset (JSNumber n) s
              = Throw TypeError (set_timestampOffset_ n s)).
  { unfold set_timestampOffset. cbn [typeof number_of]. rewrite Hn.
    unfold sink_exposes in Hsink. run.
    destruct (mediaSource_ s) as [ms|]; cbn; [|reflexivity].
    destruct (swfObj ms) as [swf|]; cbn; [|reflexivity].
    rewrite Hsink. reflexivity. }
  rewrite E. cbn. repeat split.
  apply new_effects_app. cbn. rewrite app_nil_r. reflexivity.
Qed.

Lemma timestampOffset_write_without_sink_witness :
  set_timestampOffset (JSNumber 5)
    (set_basePtsOffset_ 1000 (set_mediaSource_ None demo_state))
  = Throw TypeError
      (set_timestampOffset_ 5
         (set_basePtsOffset_ 1000 (set_mediaSource_ None demo_state))).
Proof.
  exact (proj1 (timestampOffset_write_without_sink 5
                  (set_basePtsOffset_ 1000 (set_mediaSource_ None demo_state))
                  eq_refl eq_refl)).
Defined.

(** X11: an [appendBuffer] that fails because the media source is gone
    leaves the buffer marked as updating.  The call sets [updating] before
    it touches the media source, so it throws a [TypeError] with
    [updating] true and nothing fired or posted; from then on every
    [appendBuffer] throws [InvalidStateError], and [abort()] cannot clear
    the flag either: it throws a [TypeError] at [vjs_abort] before it gets
    to [updating]. *)
Theorem failed_append_leaves_updating_set (bytes : Uint8Array) (s : State) :
  updating s = false ->
  mediaSource_ s = None ->
  appendBuffer bytes s = Throw TypeError (set_updating true s)
  /\ (forall bytes',
        exists code message,
          appendBuffer bytes' (set_updating true s)
          = Throw (InvalidStateError code message) (set_updating true s))
  /\ thrown_of (abort (set_updating true s)) = Some TypeError
  /\ updating (state_of (abort (set_updating true s))) = true.
Proof.
  intros Hu Hms. split; [|split; [|split]].
  - run. rewrite Hu. cbn. rewrite Hms. reflexivity.
  - intros bytes'. run. eauto.
  - run. rewrite Hms. reflexivity.
  - run. rewrite Hms. reflexivity.
Qed.

Lemma failed_append_leaves_updating_set_witness :
  appendBuffer demo_bytes (set_mediaSource_ None demo_state)
  = Throw TypeError (set_updating true (set_mediaSource_ None demo_state)).
Proof.
  exact (proj1 (failed_append_leaves_updating_set demo_bytes
                  (set_mediaSource_ None demo_state) eq_refl eq_refl)).
Defined.



Lemma ltb_zero_inv (x : float) :
  PrimFloat.ltb x 0 = true ->
  PrimFloat.is_nan x = false /\ PrimFloat.ltb 0 x = false.
Proof.
  intros H. rewrite ltb_spec in H. rewrite ltb_spec.
  change (Prim2SF 0) with (S754_zero false) in *.
  split.
  - destruct (PrimFloat.is_nan x) eqn:E; [|reflexivity].
    apply is_nan_Prim2SF in E. rewrite E in H. discriminate.
  - destruct (Prim2SF x) as [sg | sg | | sg m e]; cbn in *;
      try discriminate; destruct sg; cbn in *; try discriminate; reflexivity.
Qed.

Lemma Math_max_zero_negative (x : float) :
  PrimFloat.ltb x 0 = true -> Math_max 0 x = 0%float.
Proof.
  intros H. destruct (ltb_zero_inv x H) as (Hn & Hl).
  unfold Math_max. change (PrimFloat.is_nan 0) with false.
  rewrite Hn, Hl, H. reflexivity.
Qed.

(** X13: a seek to before the timestamp offset trims nothing.  When the
    tech is seeking and [currentTime - timestampOffset] is negative,
    [calculateTargetPts_] clamps the difference to [0]: the target it
    returns is [0 * 1000 + baseline], which is the baseline itself (a
    [NaN] for a [NaN], a zero for a zero). *)
Theorem seek_before_offset_targets_baseline
    (basePts len : float) (s : State) (ms : MediaSource) :
  mediaSource_ s = Some ms ->
  seeking (tech_ ms) = true ->
  PrimFloat.ltb (PrimFloat.sub (currentTime (tech_ ms)) (timestampOffset_ s)) 0
    = true ->
  exists targetPts s',
    calculateTargetPts_ basePts len s = Normal targetPts s'
    /\ targetPts = PrimFloat.add (PrimFloat.mul 0 1000) (basePtsOffset_ s')
    /\ SameValueZero targetPts (basePtsOffset_ s') = true.
Proof.
  intros Hms Hseek Hneg.
  rewrite (calculateTargetPts__spec _ _ _ _ Hms). cbv zeta.
  rewrite Hseek, (Math_max_zero_negative _ Hneg).
  eexists _, _. split; [reflexivity|]. split; [reflexivity|].
  apply zero_ms_plus.
Qed.

Lemma seek_before_offset_targets_baseline_witness :
  exists s',
    calculateTargetPts_ 1000 10 (set_timestampOffset_ 20 demo_state)
    = Normal 1000%float s'.
Proof.
  destruct (seek_before_offset_targets_baseline 1000 10
              (set_timestampOffset_ 20 demo_state) demo_mediaSource
              eq_refl eq_refl eq_refl) as (v & s' & H1 & H2 & _).
  exists s'. rewrite H1. f_equal.
  rewrite H2.
  assert (E : basePtsOffset_ s' = 1000%float).
  { assert (H := f_equal (fun c => basePtsOffset_ (state_of c)) H1).
    cbn in H. rewrite <- H. reflexivity. }
  rewrite E. reflexivity.
Defined.

(** What [receiveBuffer_] leaves in [basePtsOffset_]. *)
Lemma receiveBuffer__baseline (segment : Segment.t) (s : State) :
  basePtsOffset_ (state_of (receiveBuffer_ segment s)) =
  if isNaN (basePtsOffset_ s) && truthy (Segment.length segment)
  then Segment.basePts segment else basePtsOffset_ s.
Proof.
  rewrite receiveBuffer__unfold.
  destruct (text_tracks_frame segment s) as (Hb & _).
  cbv zeta in Hb. set (s1 := state_of _) in *. clearbody s1.
  unfold bind, postMessage, log, modify.
  pose proof (calculateTargetPts__baseline (Segment.basePts segment)
                (Segment.length segment) s1) as Hc.
  rewrite Hb in Hc.
  destruct (calculateTargetPts_ _ _ s1); exact Hc.
Qed.

(** X14: after an accepted [timestampOffset] write, the next segment of
    nonzero length sets the PTS baseline anew.  Whatever the baseline was
    before the write, and whatever the offset written, the baseline after
    [receiveBuffer_] is that segment's [basePts]. *)
Theorem accepted_write_then_segment_sets_baseline
    (n : float) (segment : Segment.t) (s : State) :
  PrimFloat.leb 0 n = true ->
  sink_exposes vjs_discontinuity s = true ->
  truthy (Segment.length segment) = true ->
  basePtsOffset_
    (state_of (receiveBuffer_ segment
                 (state_of (set_timestampOffset (JSNumber n) s))))
  = Segment.basePts segment.
Proof.
  intros Hn Hsink Hlen.
  assert (Hnan : basePtsOffset_ (state_of (set_timestampOffset (JSNumber n) s))
                 = PrimFloat.nan).
  { apply sink_exposes_inv in Hsink as (ms & swf & Hms & Hswf & Hmeth).
    unfold set_timestampOffset. cbn [typeof number_of]. rewrite Hn.
    run. rewrite Hms. cbn. rewrite Hswf, Hmeth. reflexivity. }
  rewrite receiveBuffer__baseline, Hnan, Hlen. reflexivity.
Qed.

Lemma accepted_write_then_segment_sets_baseline_witness :
  basePtsOffset_
    (state_of (receiveBuffer_ (Segment.mk 1000 10 [] [])
                 (state_of (set_timestampOffset (JSNumber 5)
                              (set_basePtsOffset_ 777 demo_state)))))
  = 1000%float.
Proof.
  exact (accepted_write_then_segment_sets_baseline 5
           (Segment.mk 1000 10 [] []) (set_basePtsOffset_ 777 demo_state)
           eq_refl eq_refl eq_refl).
Defined.

(** X15: [abort()] makes the buffer appendable again.  From any state in
    which the SWF object exposes [vjs_abort], [abort()] returns and the
    [appendBuffer] that follows is accepted: it starts a new update on an
    empty queue, whatever was queued or in progress before. *)
Theorem abort_then_appendBuffer_is_accepted (bytes : Uint8Array) (s : State) :
  sink_exposes vjs_abort s = true ->
  exists s1 s2,
    abort s = Normal tt s1
    /\ appendBuffer bytes s1 = Normal tt s2
    /\ updating s2 = true
    /\ buffer_ s2 = []
    /\ bufferSize_ s2 = 0%Z
    /\ posted (new_effects s s2) =
         [MsgPush (buffer bytes) (byteOffset bytes) (byteLength bytes);
          MsgFlush].
Proof.
  intros Hsink.
  apply sink_exposes_inv in Hsink as (ms & swf & Hms & Hswf & Hmeth).
  assert (Habort : exists s1 l1,
             abort s = Normal tt s1
             /\ effects s1 = effects s ++ l1 /\ posted l1 = []
             /\ updating s1 = false /\ buffer_ s1 = []
             /\ bufferSize_ s1 = 0%Z
             /\ mediaSource_ s1 = Some ms).
  { run. rewrite Hms. cbn. rewrite Hswf, Hmeth. cbn.
    destruct (updating s) eqn:U; cbn;
      [destruct (updateend_once s); cbn; rewrite ?Hms; cbn|];
      eexists _, _; (split; [reflexivity|]); cbn;
      rewrite <- ?app_assoc; (split; [reflexivity|]); cbn;
      repeat split; auto. }
  destruct Habort as (s1 & l1 & Ha & E1 & P1 & U1 & B1 & Z1 & M1).
  exists s1. run. rewrite U1. cbn. rewrite M1. cbn.
  eexists. split; [exact Ha|]. split; [reflexivity|]. cbn.
  rewrite E1, <- !app_assoc.
  match goal with |- context [new_effects s ?b] =>
    rewrite (new_effects_app s b _ eq_refl) end.
  repeat split; auto.
  clear -P1. induction l1 as [|e l1 IH]; [reflexivity|].
  destruct e; cbn in *; try discriminate; auto.
Qed.

Lemma abort_then_appendBuffer_is_accepted_witness :
  exists s1 s2,
    abort demo_handed = Normal tt s1
    /\ appendBuffer demo_bytes s1 = Normal tt s2
    /\ updating s2 = true
    /\ buffer_ s2 = [].
Proof.
  destruct (abort_then_appendBuffer_is_accepted demo_bytes demo_handed eq_refl)
    as (s1 & s2 & H1 & H2 & H3 & H4 & _).
  exists s1, s2. repeat split; assumption.
Defined.
